(** * AzureMLFolderDataSet: version resolution, path layout and selective download

    A shallow embedding of [kedro_azureml/datasets/folder_dataset.py].
    The dataset wraps an inner, format-specific dataset and decides
    (a) which version of a remote data asset is read and (b) which remote
    objects are downloaded where before the inner dataset loads them.

    Layout of this file:
    - [Pathlib]: the part of [pathlib.PurePosixPath] the dataset uses;
    - the exception/result monad threading the instance, the log of calls
      made on the collaborators and the local download directory;
    - the methods of [AzureMLFolderDataSet], in source order;
    - the properties of section 8 of the specification. *)

From stdpp Require Import base strings gmap list.
From Stdlib Require Import Ascii.

Local Open Scope string_scope.
Local Open Scope list_scope.

(** ** pathlib

    [Path(...)], the [/] operator, [str()], [.suffix] and [.parent] on a POSIX
    host.  A path is kept the way [pathlib] keeps it after parsing: a root
    (the empty string, one slash, or exactly two slashes) and the list of its
    segments, from which empty segments and single dots have been dropped. *)
Module Pathlib.

Record Path := mkPath { root : string; segments : list string }.

(** [s.split("/")]: always at least one piece. *)
Fixpoint split_sep (s : string) : list string :=
  match s with
  | EmptyString => [ EmptyString ]
  | String c r =>
      if Ascii.eqb c "/" then EmptyString :: split_sep r
      else match split_sep r with
           | h :: t => String c h :: t
           | [] => [ String c EmptyString ]
           end
  end.

(** [s.lstrip("/")] *)
Fixpoint lstrip_sep (s : string) : string :=
  match s with
  | String c r => if Ascii.eqb c "/" then lstrip_sep r else s
  | EmptyString => EmptyString
  end.

(** [splitroot] of the POSIX flavour: exactly two leading slashes are kept
    as a root of their own, any other number collapses to one. *)
Definition splitroot (part : string) : string * string :=
  match part with
  | String c _ =>
      if Ascii.eqb c "/" then
        let stripped := lstrip_sep part in
        if Nat.eqb (String.length part - String.length stripped) 2
        then ("//", stripped) else ("/", stripped)
      else ("", part)
  | EmptyString => ("", part)
  end.

Definition keep_segment (x : string) : bool :=
  negb (String.eqb x "") && negb (String.eqb x ".").

(** [Path(s)] for a string [s]. *)
Definition parse (s : string) : Path :=
  let '(r, rel) := splitroot s in
  mkPath r (List.filter keep_segment (split_sep rel)).

Definition is_absolute (p : Path) : bool := negb (String.eqb (root p) "").

(** [p / q]: an anchored right operand replaces the left one. *)
Definition joinpath (p q : Path) : Path :=
  if is_absolute q then q
  else mkPath (root p) (segments p ++ segments q).

Fixpoint join_sep (l : list string) : string :=
  match l with
  | [] => ""
  | [x] => x
  | x :: t => x +:+ "/" +:+ join_sep t
  end.

(** [str(p)] *)
Definition to_str (p : Path) : string :=
  let s := root p +:+ join_sep (segments p) in
  if String.eqb s "" then "." else s.

(** [p.name]: the final segment, the empty string when there is none. *)
Definition name (p : Path) : string := List.last (segments p) "".

(** [s.rfind(".")] *)
Fixpoint rfind_dot (s : string) : option nat :=
  match s with
  | EmptyString => None
  | String c r =>
      match rfind_dot r with
      | Some i => Some (S i)
      | None => if Ascii.eqb c "." then Some 0 else None
      end
  end.

(** [p.suffix]: from the last dot of the name on, unless that dot is the
    first or the last character of the name. *)
Definition suffix (p : Path) : string :=
  let n := name p in
  match rfind_dot n with
  | Some i =>
      if Nat.ltb 0 i && Nat.ltb i (String.length n - 1)
      then String.substring i (String.length n - i) n
      else ""
  | None => ""
  end.

(** [p.parent]: the path without its final segment; a path without
    segments is its own parent. *)
Definition parent (p : Path) : Path :=
  mkPath (root p) (List.removelast (segments p)).

End Pathlib.

Import Pathlib.

(** ** Python values, exceptions and the collaborators *)

(** [kedro.io.core.Version]: a named pair of an optional load version and an
    optional save version. *)
Record Version := mkVersion { load : option string; save : option string }.

(** Values held by the inner dataset's configuration (a [Dict[str, Any]])
    and the data handed over by the inner dataset. *)
Inductive Value :=
| VNone
| VBool (b : bool)
| VInt (z : Z)
| VStr (s : string)
| VVersion (v : Version).

(** The exceptions that occur.  [VersionNotFoundError] carries the version
    interpolated into its message (Did not find version ... for ...). *)
Inductive Exception :=
| ResourceNotFoundError
| DataSetError (message : string)
| DataSetNotFoundError
| VersionNotFoundError (version : string)
| KeyError (key : string)
| TypeError
| UnboundLocalError (variable : string)
| InnerDataSetError (message : string).

Definition is_ResourceNotFoundError (e : Exception) : bool :=
  match e with ResourceNotFoundError => true | _ => false end.

Inductive Result (A : Type) :=
| Ok (a : A)
| Raise (e : Exception).
Arguments Ok {A} a.
Arguments Raise {A} e.

(** A registered data asset, as returned by [ml_client.data.get]. *)
Module Asset.
Record t := mk { type : string; path : string; version : string }.
End Asset.

(** The remote data-asset client and file system.
    - [data_get_latest name] is [ml_client.data.get(name, label="latest")],
      [None] standing for [ResourceNotFoundError];
    - [data_get name v] is [ml_client.data.get(name, version=v)];
    - [infer_storage_options p] is [fs._infer_storage_options(p)[-1]];
    - [ls uri p] is [AzureMachineLearningFileSystem(uri).ls(p)]. *)
Record RemoteStore := mkRemoteStore {
  data_get_latest : string → option Asset.t;
  data_get : string → string → option Asset.t;
  infer_storage_options : string → string;
  ls : string → string → list string
}.

(** Every call made on a collaborator, in program order. *)
Inductive Call :=
| DataGetLatest (name : string)
| DataGet (name version : string)
| FileSystem (uri : string)
| Ls (path : string)
| Download (fpath target overwrite : string)
| InnerLoad (config : gmap string Value)
| InnerSave (config : gmap string Value) (data : Value).

Definition is_remote (c : Call) : bool :=
  match c with
  | InnerLoad _ | InnerSave _ _ => false
  | _ => true
  end.

Definition is_latest_lookup (c : Call) : bool :=
  match c with DataGetLatest _ => true | _ => false end.

Definition is_download (c : Call) : bool :=
  match c with Download _ _ _ => true | _ => false end.

(** The inner dataset class: what the [load()] of an inner dataset built from
    a configuration yields given the files present locally, and what its
    [save(data)] does.  A failure of the inner dataset is given by its
    message; it is kept apart from the exceptions the wrapper raises itself
    (see [InnerDataSetError]). *)
Record InnerDataSetType := mkInner {
  inner_load : gmap string Value → gset (string * string) → Value + string;
  inner_save : gmap string Value → Value → unit + string
}.

(** ** The dataset instance and the run state *)

Record AzureMLFolderDataSet := mkDataSet {
  _dataset_config : gmap string Value;
  folder : string;
  _filepath_arg : string;
  _azureml_dataset : string;
  _version : option Version;
  _version_cache : gmap string string;
  _download : bool;
  _local_run : bool;
  _azureml_config : option string
}.

(** What a method can read and change: the instance, the log of calls on
    collaborators, the files present in local directories (as pairs of
    directory and remote object path) and the transfers actually made. *)
Record State := mkState {
  self : AzureMLFolderDataSet;
  calls : list Call;
  local_files : gset (string * string);
  transfers : list (string * string)
}.

Definition M (St A : Type) : Type := St → Result A * St.

#[global] Instance M_ret {St} : MRet (M St) := λ A a s, (Ok a, s).
#[global] Instance M_bind {St} : MBind (M St) := λ A B f m s,
  match m s with
  | (Ok a, s') => f a s'
  | (Raise e, s') => (Raise e, s')
  end.

Definition raise {St A} (e : Exception) : M St A := λ s, (Raise e, s).
Definition from_inner {St A} (r : A + string) : M St A := λ s,
  match r with
  | inl a => (Ok a, s)
  | inr message => (Raise (InnerDataSetError message), s)
  end.
Definition gets {St A} (f : St → A) : M St A := λ s, (Ok (f s), s).
Definition modify {St} (f : St → St) : M St unit := λ s, (Ok tt, f s).

(** [try: body except <class>: handler] *)
Definition try_except {St A} (body : M St A) (catches : Exception → bool)
    (handler : M St A) : M St A := λ s,
  match body s with
  | (Raise e, s') => if catches e then handler s' else (Raise e, s')
  | r => r
  end.

(** [for x in l: body x] *)
Fixpoint for_each {St A} (l : list A) (body : A → M St unit) : M St unit :=
  match l with
  | [] => mret tt
  | x :: t => body x ;; for_each t body
  end.

Definition log (c : Call) : M State unit :=
  modify (λ s, mkState (self s) (calls s ++ [c]) (local_files s) (transfers s)).

(** The instance with its version cache replaced. *)
Definition with_cache (d : AzureMLFolderDataSet) (c : gmap string string)
    : AzureMLFolderDataSet :=
  mkDataSet (_dataset_config d) (folder d) (_filepath_arg d) (_azureml_dataset d)
            (_version d) c (_download d) (_local_run d) (_azureml_config d).

Definition set_version_cache (c : gmap string string) : M State unit :=
  modify (λ s, mkState (with_cache (self s) c) (calls s) (local_files s) (transfers s)).

Definition remote_calls (s : State) : list Call := List.filter is_remote (calls s).
Definition latest_lookups (s : State) : list Call :=
  List.filter is_latest_lookup (calls s).

(** ** Construction *)

Section Construction.

(** The two reserved keys of [kedro.io.core]. *)
Variables VERSION_KEY VERSIONED_FLAG_KEY : string.





End Construction.

(** ** Methods *)

Section Methods.

Variable remote : RemoteStore.
Variable inner : InnerDataSetType.

(** [self._dataset_config[self._filepath_arg]] *)
Definition dataset_config_filepath : M State Value :=
  d ← gets self;
  match _dataset_config d !! _filepath_arg d with
  | Some v => mret v
  | None => raise (KeyError (_filepath_arg d))
  end.

(** A path operand: [Path(v)] and [p / v] accept strings only. *)
Definition as_path (v : Value) : M State Path :=
  match v with
  | VStr s => mret (parse s)
  | _ => raise TypeError
  end.

(** Modelled from the spec: [_get_azureml_client], of
    [kedro_azureml.client], missing here.  The client it yields within the
    [with] block is the Remote Data-Asset Client of the run, whatever the
    configuration; acquiring and releasing it makes no call of its own. *)
Definition _get_azureml_client (config : option string) : RemoteStore := remote.

(** [ml_client.data.get(name, label="latest")] *)
Definition ml_client_data_get_latest (ml_client : RemoteStore) (name : string)
    : M State Asset.t :=
  log (DataGetLatest name);;
  match data_get_latest ml_client name with
  | Some a => mret a
  | None => raise ResourceNotFoundError
  end.

(** [ml_client.data.get(name, version=v)] *)
Definition ml_client_data_get (ml_client : RemoteStore) (name v : string)
    : M State Asset.t :=
  log (DataGet name v);;
  match data_get ml_client name v with
  | Some a => mret a
  | None => raise ResourceNotFoundError
  end.

Definition _get_latest_version : M State string :=
  try_except
    (d ← gets self;
     let ml_client := _get_azureml_client (_azureml_config d) in
     a ← ml_client_data_get_latest ml_client (_azureml_dataset d);
     mret (Asset.version a))
    is_ResourceNotFoundError
    (raise DataSetNotFoundError).

(** [@cachedmethod(cache=attrgetter("_version_cache"), key=...)]: a hit
    returns the stored value without running the method; a miss runs it
    and stores what it returns, nothing being stored when it raises.  The
    cache holds two entries and only the keys of the load and the save
    version are ever stored in it, so no entry is evicted. *)
Definition cachedmethod (k : string) (method : M State string) : M State string :=
  c ← gets (λ s, _version_cache (self s));
  match c !! k with
  | Some v => mret v
  | None =>
      v ← method;
      c' ← gets (λ s, _version_cache (self s));
      set_version_cache (<[k := v]> c');;
      mret v
  end.

Definition _fetch_latest_load_version : M State string :=
  cachedmethod "load" _get_latest_version.

(** Modelled from the spec: [resolve_load_version], inherited from
    [AbstractVersionedDataSet], missing here.  An explicit load version
    supplied at construction is returned unchanged; otherwise the latest
    version is fetched through the cached [_fetch_latest_load_version]. *)
Definition resolve_load_version : M State string :=
  d ← gets self;
  match _version d with
  | Some (mkVersion (Some v) _) => mret v
  | _ => _fetch_latest_load_version
  end.

(** The [path] property. *)
Definition path : M State Path :=
  d ← gets self;
  if _local_run d then
    v ← resolve_load_version;
    f ← dataset_config_filepath;
    q ← as_path f;
    mret (joinpath
            (joinpath (joinpath (parse (folder d)) (parse (_azureml_dataset d)))
                      (parse v))
            q)
  else
    f ← dataset_config_filepath;
    q ← as_path f;
    mret (joinpath (parse (folder d)) q).

(** The [download_path] property; [self.path] is evaluated once for the
    test and once more for the result. *)
Definition download_path : M State string :=
  p ← path;
  if negb (String.eqb (suffix p) "") then
    p' ← path;
    mret (to_str (parent p'))
  else
    p' ← path;
    mret (to_str p').

(** What [_construct_dataset] returns: the inner dataset, given by the
    configuration it was built from. *)
Definition _construct_dataset : M State (gmap string Value) :=
  d ← gets self;
  let dataset_config := _dataset_config d in
  p ← path;
  mret (<[_filepath_arg d := VStr (to_str p)]> dataset_config).

Definition _get_azureml_dataset : M State Asset.t :=
  d ← gets self;
  let ml_client := _get_azureml_client (_azureml_config d) in
  v ← resolve_load_version;
  ml_client_data_get ml_client (_azureml_dataset d) v.

(** [AzureMachineLearningFileSystem(uri)]; the file system is known by the
    uri it was opened on.  The runs followed here are those in which the
    remote file system answers: opening it, listing and transferring are
    logged and do not fail, so that a load cut short by such a failure is
    not among them. *)
Definition AzureMachineLearningFileSystem (uri : string) : M State string :=
  log (FileSystem uri);;
  mret uri.

(** [fs.ls(path)]: the objects the store lists under [path]. *)
Definition fs_ls (fs p : string) : M State (list string) :=
  log (Ls p);;
  mret (ls remote fs p).

(** Modelled from the spec: [fs.download(object_path, destination_dir,
    overwrite=mode)], missing here.  In mode [APPEND] (skip existing) an
    object already present in the destination is kept and not fetched
    again; otherwise the object is transferred and is present
    afterwards. *)
Definition fs_download (fpath target overwrite : string) : M State unit :=
  log (Download fpath target overwrite);;
  modify (λ s,
    if String.eqb overwrite "APPEND" && bool_decide ((target, fpath) ∈ local_files s)
    then s
    else mkState (self s) (calls s) ({[ (target, fpath) ]} ∪ local_files s)
                 (transfers s ++ [(target, fpath)])).

(** Reading a local variable that no branch has assigned. *)
Definition read_local (variable : string) (v : option string) : M State string :=
  match v with
  | Some x => mret x
  | None => raise (UnboundLocalError variable)
  end.

Definition inner_dataset_load (config : gmap string Value) : M State Value :=
  log (InnerLoad config);;
  files ← gets local_files;
  from_inner (inner_load inner config files).

(** [dataset.save(data)] on the inner dataset built from [config]: the call
    is logged with the configuration and the data handed over; what the
    inner dataset writes is its own business and is not tracked among
    [local_files]. *)
Definition inner_dataset_save (config : gmap string Value) (data : Value)
    : M State unit :=
  log (InnerSave config data);;
  from_inner (inner_save inner config data).

Definition _load : M State Value :=
  d ← gets self;
  (if _download d then
     azureml_ds ←
       try_except _get_azureml_dataset is_ResourceNotFoundError
         (v ← resolve_load_version; raise (VersionNotFoundError v));
     fs ← AzureMachineLearningFileSystem (Asset.path azureml_ds);
     path_on_azure ←
       (if String.eqb (Asset.type azureml_ds) "uri_file" then
          mret (Some (infer_storage_options remote (Asset.path azureml_ds)))
        else if String.eqb (Asset.type azureml_ds) "uri_folder" then
          let dataset_root_on_azure :=
            infer_storage_options remote (Asset.path azureml_ds) in
          f ← dataset_config_filepath;
          q ← as_path f;
          mret (Some (to_str (joinpath (parse dataset_root_on_azure) q)))
        else mret None);
     p ← read_local "path_on_azure" path_on_azure;
     fpaths ← fs_ls fs p;
     for_each fpaths (λ fpath,
       target ← download_path;
       fs_download fpath target "APPEND")
   else mret tt);;
  ds ← _construct_dataset;
  inner_dataset_load ds.

Definition _save (data : Value) : M State unit :=
  ds ← _construct_dataset;
  inner_dataset_save ds data.

End Methods.

(** ** Derived notions used in the statements *)

(** The load version given at construction, if any. *)
Definition explicit_load_version (d : AzureMLFolderDataSet) : option string :=
  match _version d with
  | Some v => load v
  | None => None
  end.

(** The version [resolve_load_version] yields without asking the remote
    store: the explicit one, else the one in the load slot of the cache. *)
Definition known_load_version (d : AzureMLFolderDataSet) : option string :=
  match explicit_load_version d with
  | Some v => Some v
  | None => _version_cache d !! "load"
  end.

(** The state after one lookup of the latest version that failed... *)
Definition after_lookup (s : State) : State :=
  mkState (self s) (calls s ++ [DataGetLatest (_azureml_dataset (self s))])
          (local_files s) (transfers s).

(** ...and after one that found version [v], now in the load slot. *)
Definition after_fetch (s : State) (v : string) : State :=
  mkState (with_cache (self s) (<["load" := v]> (_version_cache (self s))))
          (calls s ++ [DataGetLatest (_azureml_dataset (self s))])
          (local_files s) (transfers s).

(** The Resolved Local Path of an instance for load version [v] and inner
    file path [fp], by run mode. *)
Definition resolved_local_path (d : AzureMLFolderDataSet) (v fp : string) : Path :=
  if _local_run d then
    joinpath (joinpath (joinpath (parse (folder d)) (parse (_azureml_dataset d)))
                       (parse v))
             (parse fp)
  else joinpath (parse (folder d)) (parse fp).

(** The Download Target derived from a path. *)
Definition download_target (p : Path) : string :=
  if negb (String.eqb (suffix p) "") then to_str (parent p) else to_str p.

(** The instance holds the string [fp] under its file path key. *)
Definition has_filepath (d : AzureMLFolderDataSet) (fp : string) : Prop :=
  _dataset_config d !! _filepath_arg d = Some (VStr fp).

(** The state with further calls logged. *)
Definition logged (l : list Call) (s : State) : State :=
  mkState (self s) (calls s ++ l) (local_files s) (transfers s).

(** The state after [fs.download(fpath, target, overwrite="APPEND")]. *)
Definition after_download (fpath target : string) (s : State) : State :=
  let s' := logged [Download fpath target "APPEND"] s in
  if bool_decide ((target, fpath) ∈ local_files s') then s'
  else mkState (self s') (calls s') ({[ (target, fpath) ]} ∪ local_files s')
               (transfers s' ++ [(target, fpath)]).

(** The state after the download loop over the listing [l]. *)
Fixpoint after_downloads (target : string) (l : list string) (s : State) : State :=
  match l with
  | [] => s
  | fpath :: t => after_downloads target t (after_download fpath target s)
  end.

(** The exception raised on using the inner file path as a path, if any:
    the key is missing, or what it holds is not a string. *)
Definition filepath_error (d : AzureMLFolderDataSet) : option Exception :=
  match _dataset_config d !! _filepath_arg d with
  | None => Some (KeyError (_filepath_arg d))
  | Some (VStr _) => None
  | Some _ => Some TypeError
  end.

(** The configuration the inner dataset is built from for path [p]. *)
Definition inner_config (d : AzureMLFolderDataSet) (p : Path) : gmap string Value :=
  <[_filepath_arg d := VStr (to_str p)]> (_dataset_config d).

(** What the [load()] of the inner dataset built from [config] results in. *)
Definition inner_result (inner : InnerDataSetType) (config : gmap string Value)
    (files : gset (string * string)) : Result Value :=
  match inner_load inner config files with
  | inl data => Ok data
  | inr message => Raise (InnerDataSetError message)
  end.

(** The remote path relevant to an asset: the storage path of a single-file
    asset, the storage root joined with the inner file path [fp] for a
    folder asset, none for an asset of another type. *)
Definition relevant_remote_path (remote : RemoteStore) (a : Asset.t) (fp : string)
    : option string :=
  if String.eqb (Asset.type a) "uri_file" then
    Some (infer_storage_options remote (Asset.path a))
  else if String.eqb (Asset.type a) "uri_folder" then
    Some (to_str (joinpath (parse (infer_storage_options remote (Asset.path a)))
                           (parse fp)))
  else None.

(** All a call of [resolve_load_version] can do. *)
Inductive resolve_outcome (remote : RemoteStore) (s : State)
    : Result string → State → Prop :=
| resolve_known v :
    known_load_version (self s) = Some v →
    resolve_outcome remote s (Ok v) s
| resolve_fetched a :
    known_load_version (self s) = None →
    data_get_latest remote (_azureml_dataset (self s)) = Some a →
    resolve_outcome remote s (Ok (Asset.version a)) (after_fetch s (Asset.version a))
| resolve_absent :
    known_load_version (self s) = None →
    data_get_latest remote (_azureml_dataset (self s)) = None →
    resolve_outcome remote s (Raise DataSetNotFoundError) (after_lookup s).

(** All a call of [_load] can do. *)
Inductive load_outcome (remote : RemoteStore) (inner : InnerDataSetType) (s : State)
    : Result Value → State → Prop :=
| load_plain P s1 :
    _download (self s) = false →
    path remote s = (Ok P, s1) →
    load_outcome remote inner s
      (inner_result inner (inner_config (self s) P) (local_files s1))
      (logged [InnerLoad (inner_config (self s) P)] s1)
| load_plain_raise e s1 :
    _download (self s) = false →
    path remote s = (Raise e, s1) →
    load_outcome remote inner s (Raise e) s1
| load_no_asset s1 :
    _download (self s) = true →
    resolve_load_version remote s = (Raise DataSetNotFoundError, s1) →
    load_outcome remote inner s (Raise DataSetNotFoundError) s1
| load_no_version v s1 :
    _download (self s) = true →
    resolve_load_version remote s = (Ok v, s1) →
    data_get remote (_azureml_dataset (self s)) v = None →
    load_outcome remote inner s (Raise (VersionNotFoundError v))
      (logged [DataGet (_azureml_dataset (self s)) v] s1)
| load_no_remote_path v s1 a :
    _download (self s) = true →
    resolve_load_version remote s = (Ok v, s1) →
    data_get remote (_azureml_dataset (self s)) v = Some a →
    String.eqb (Asset.type a) "uri_file" = false →
    String.eqb (Asset.type a) "uri_folder" = false →
    load_outcome remote inner s (Raise (UnboundLocalError "path_on_azure"))
      (logged [DataGet (_azureml_dataset (self s)) v; FileSystem (Asset.path a)] s1)
| load_no_filepath v s1 a e :
    _download (self s) = true →
    resolve_load_version remote s = (Ok v, s1) →
    data_get remote (_azureml_dataset (self s)) v = Some a →
    filepath_error (self s) = Some e →
    load_outcome remote inner s (Raise e)
      (logged ([DataGet (_azureml_dataset (self s)) v; FileSystem (Asset.path a)]
               ++ (if String.eqb (Asset.type a) "uri_file"
                   then [Ls (infer_storage_options remote (Asset.path a))]
                   else []))
              s1)
| load_downloaded v s1 a fp p :
    _download (self s) = true →
    has_filepath (self s) fp →
    resolve_load_version remote s = (Ok v, s1) →
    data_get remote (_azureml_dataset (self s)) v = Some a →
    relevant_remote_path remote a fp = Some p →
    let P := resolved_local_path (self s) v fp in
    let s2 := after_downloads (download_target P) (ls remote (Asset.path a) p)
                (logged [DataGet (_azureml_dataset (self s)) v;
                         FileSystem (Asset.path a); Ls p] s1) in
    load_outcome remote inner s
      (inner_result inner (inner_config (self s) P) (local_files s2))
      (logged [InnerLoad (inner_config (self s) P)] s2).

(** The remote calls version resolution makes on an instance: none when the
    load version is known, else one lookup of the latest version. *)
Definition resolution_calls (d : AzureMLFolderDataSet) : list Call :=
  match known_load_version d with
  | Some _ => []
  | None => [DataGetLatest (_azureml_dataset d)]
  end.

(** The remote calls computing the path makes. *)
Definition path_calls (d : AzureMLFolderDataSet) : list Call :=
  if _local_run d then resolution_calls d else [].

(** Every download among the calls [cs] is in skip-existing mode. *)
Definition skip_existing_only (cs : list Call) : Prop :=
  ∀ fpath target overwrite, Download fpath target overwrite ∈ cs → overwrite = "APPEND".

(** From [s] to [s'] local files are only added, downloads are only issued
    in skip-existing mode, and only files absent in [s] are transferred. *)
Definition additive (s s' : State) : Prop :=
  local_files s ⊆ local_files s'
  ∧ ∃ cs ts,
      calls s' = calls s ++ cs
      ∧ transfers s' = transfers s ++ ts
      ∧ skip_existing_only cs
      ∧ ∀ x, x ∈ ts → x ∉ local_files s.

(** The calls made since an earlier state whose log had [n] entries. *)
Definition calls_since (n : nat) (s : State) : list Call := drop n (calls s).

(** ** Further notions: instance frame, save, normal paths *)

(** From [s] to [s'] the instance is the same but for its version cache,
    in which only the load slot may have been filled: the other entries
    are as before and an entry in the load slot is never replaced. *)
Definition same_instance (s s' : State) : Prop :=
  self s' = with_cache (self s) (_version_cache (self s'))
  ∧ (∀ k, k ≠ "load" → _version_cache (self s') !! k = _version_cache (self s) !! k)
  ∧ (∀ v, _version_cache (self s) !! "load" = Some v →
          _version_cache (self s') !! "load" = Some v).

(** What the [save(data)] of the inner dataset built from [config] results in. *)
Definition inner_save_result (inner : InnerDataSetType) (config : gmap string Value)
    (data : Value) : Result unit :=
  match inner_save inner config data with
  | inl u => Ok u
  | inr message => Raise (InnerDataSetError message)
  end.


(** [sep in s] *)
Fixpoint has_sep (s : string) : bool :=
  match s with
  | EmptyString => false
  | String c r => Ascii.eqb c "/" || has_sep r
  end.

(** A segment as [pathlib] keeps it: not empty, not a single dot, without
    separator. *)
Definition plain_segment (x : string) : bool :=
  keep_segment x && negb (has_sep x).

(** A path as [pathlib] keeps it. *)
Definition normal (p : Path) : Prop :=
  (root p = "" ∨ root p = "/" ∨ root p = "//")
  ∧ Forall (λ x, plain_segment x = true) (segments p).

(** ** The local-run hook ([hooks.py]) *)

(** [needle in hay] on strings: [needle] occurs in [hay]. *)
Fixpoint contains (needle hay : string) : bool :=
  if String.prefix needle hay then true
  else match hay with
       | EmptyString => false
       | String _ rest => contains needle rest
       end.

(** The exceptions of the hook. *)
Inductive HookError :=
| HookKeyError (key : string)
| HookAttributeError (attribute : string)
| ConfigError (message : string).

(** The config patterns registered for the [azureml] key. *)
Definition azureml_patterns : list string :=
  ["azureml*"; "azureml*/**"; "**/azureml*"].

(** [AzurePipelinesRunner.__name__] *)
Definition AzurePipelinesRunner__name__ : string := "AzurePipelinesRunner".

Section Hook.

(** What an [AzureMLAssetDataSet] holds besides its version, the other
    datasets of a catalog, the asset-store configuration and the raw
    configuration it is built from. *)
Variables AssetState OtherDataSet AzureMLConfig RawConfig : Type.

(** An instance of [AzureMLAssetDataSet]: its [_version] attribute and the
    rest of its state. *)
Record AssetDataSet := mkAsset {
  asset_version : option Version;
  asset_state : AssetState
}.

(** A dataset of the catalog, by [isinstance(dataset, AzureMLAssetDataSet)]. *)
Inductive DataSet :=
| Asset (d : AssetDataSet)
| Other (d : OtherDataSet).

(** [dataset.as_local(azure_config, download=download)]: the dataset
    afterwards. *)
Variable as_local : AzureMLConfig → bool → AssetDataSet → AssetDataSet.

(** [context.config_loader[key]] under given config patterns, and the
    construction of an [AzureMLConfig] from the raw configuration. *)
Variable config_loader_getitem :
  gmap string (list string) → string → HookError + gmap string RawConfig.
Variable AzureMLConfig_init : RawConfig → HookError + AzureMLConfig.

(** The hook object: [self.azure_config], unset until
    [after_context_created] has run. *)
Definition Hook : Type := option AzureMLConfig.

(** [after_context_created]: the config patterns and the hook afterwards,
    with the exception raised, if any. *)
Definition after_context_created (config_patterns : gmap string (list string))
    (hook : Hook) : option HookError * gmap string (list string) * Hook :=
  let config_patterns :=
    if bool_decide ("azureml" ∉ dom config_patterns)
    then <["azureml" := azureml_patterns]> config_patterns
    else config_patterns in
  match config_loader_getitem config_patterns "azureml" with
  | inl e => (Some e, config_patterns, hook)
  | inr azureml =>
      match azureml !! "azure" with
      | None => (Some (HookKeyError "azure"), config_patterns, hook)
      | Some raw =>
          match AzureMLConfig_init raw with
          | inl e => (Some e, config_patterns, hook)
          | inr azure_config => (None, config_patterns, Some azure_config)
          end
      end
  end.

(** The body of the loop of [before_pipeline_run] for one item of the
    catalog: the catalog afterwards, or the exception raised. *)
Definition visit_dataset (hook : Hook) (run_params : gmap string string)
    (inputs : gset string) (dataset_name : string) (dataset : DataSet)
    (catalog : gmap string DataSet) : HookError + gmap string DataSet :=
  match dataset with
  | Asset d =>
      match run_params !! "runner" with
      | None => inl (HookKeyError "runner")
      | Some runner =>
          if negb (contains AzurePipelinesRunner__name__ runner) then
            let download := bool_decide (dataset_name ∈ inputs) in
            match hook with
            | None => inl (HookAttributeError "azure_config")
            | Some azure_config =>
                inr (<[dataset_name := Asset (as_local azure_config download d)]> catalog)
            end
          else
            inr (<[dataset_name := Asset (mkAsset None (asset_state d))]> catalog)
      end
  | Other _ => inr catalog
  end.

(** [for dataset_name, dataset in items: ...] *)
Fixpoint visit_datasets (hook : Hook) (run_params : gmap string string)
    (inputs : gset string) (items : list (string * DataSet))
    (catalog : gmap string DataSet) : option HookError * gmap string DataSet :=
  match items with
  | [] => (None, catalog)
  | (dataset_name, dataset) :: rest =>
      match visit_dataset hook run_params inputs dataset_name dataset catalog with
      | inl e => (Some e, catalog)
      | inr catalog' => visit_datasets hook run_params inputs rest catalog'
      end
  end.

(** [before_pipeline_run]: the catalog afterwards, with the exception
    raised, if any.  The items are those the catalog has when the loop
    starts. *)
Definition before_pipeline_run (hook : Hook) (run_params : gmap string string)
    (inputs : gset string) (catalog : gmap string DataSet)
    : option HookError * gmap string DataSet :=
  visit_datasets hook run_params inputs (map_to_list catalog) catalog.

End Hook.

Arguments mkAsset {AssetState} asset_version asset_state.
Arguments asset_version {AssetState} a.
Arguments asset_state {AssetState} a.
Arguments Asset {AssetState OtherDataSet} d.
Arguments Other {AssetState OtherDataSet} d.
Arguments visit_dataset {AssetState OtherDataSet AzureMLConfig} as_local hook
  run_params inputs dataset_name dataset catalog.
Arguments visit_datasets {AssetState OtherDataSet AzureMLConfig} as_local hook
  run_params inputs items catalog.
Arguments before_pipeline_run {AssetState OtherDataSet AzureMLConfig} as_local hook
  run_params inputs catalog.
Arguments after_context_created {AzureMLConfig RawConfig} config_loader_getitem
  AzureMLConfig_init config_patterns hook.

(** What the hook does to a dataset in a remote run, and in a local run
    with config [azure_config] for the dataset named [name]. *)
Definition for_remote_run {AssetState OtherDataSet}
    (dataset : DataSet AssetState OtherDataSet) : DataSet AssetState OtherDataSet :=
  match dataset with
  | Asset d => Asset (mkAsset None (asset_state d))
  | Other _ => dataset
  end.

Definition for_local_run {AssetState OtherDataSet AzureMLConfig}
    (as_local : AzureMLConfig → bool → AssetDataSet AssetState → AssetDataSet AssetState)
    (azure_config : AzureMLConfig) (inputs : gset string) (name : string)
    (dataset : DataSet AssetState OtherDataSet) : DataSet AssetState OtherDataSet :=
  match dataset with
  | Asset d => Asset (as_local azure_config (bool_decide (name ∈ inputs)) d)
  | Other _ => dataset
  end.

Definition is_asset {AssetState OtherDataSet}
    (dataset : DataSet AssetState OtherDataSet) : bool :=
  match dataset with Asset _ => true | Other _ => false end.

(** ** A concrete setting

    One registered folder asset, [sales], whose latest version is [3], and a
    store that has no asset at all. *)
Module Examples.

Definition sales : Asset.t :=
  Asset.mk "uri_folder" "azureml://datastores/raw/paths/sales/" "3".

Definition store : RemoteStore :=
  mkRemoteStore
    (λ n, if String.eqb n "sales" then Some sales else None)
    (λ n v, if String.eqb n "sales" && String.eqb v "3" then Some sales else None)
    (λ _, "raw/sales")
    (λ _ p, [p +:+ "/part-0"; p +:+ "/part-1"]).

(** The latest version is registered by name, but fetching it fails. *)
Definition stale_store : RemoteStore :=
  mkRemoteStore
    (λ n, if String.eqb n "sales" then Some sales else None)
    (λ _ _, None)
    (λ _, "raw/sales")
    (λ _ _, []).

(** The asset is a table, neither a single file nor a folder. *)
Definition table : Asset.t :=
  Asset.mk "mltable" "azureml://datastores/raw/paths/sales/" "3".

Definition table_store : RemoteStore :=
  mkRemoteStore (λ _, Some table) (λ _ _, Some table) (λ _, "raw/sales")
                (λ _ p, [p +:+ "/part-0"]).

Definition empty_store : RemoteStore :=
  mkRemoteStore (λ _, None) (λ _ _, None) (λ p, p) (λ _ _, []).

Definition inner : InnerDataSetType :=
  mkInner (λ _ _, inl (VStr "rows")) (λ _ _, inl tt).

(** An instance for asset [sales] under folder [data], as the constructor
    leaves it, with the two mode flags as the hook sets them. *)
Definition dataset (version : option Version) (download local_run : bool)
    (filepath : string) : AzureMLFolderDataSet :=
  mkDataSet {[ "filepath" := VStr filepath ]} "data" "filepath" "sales"
            version ∅ download local_run None.

(** The start of a run: nothing called, nothing downloaded. *)
Definition start (d : AzureMLFolderDataSet) : State := mkState d [] ∅ [].

(** Version [v] given explicitly at construction. *)
Definition pinned (v : string) : option Version := Some (mkVersion (Some v) None).

(** A [Version] object without a load version. *)
Definition unpinned : option Version := Some (mkVersion None None).

End Examples.

(** A catalog with two asset datasets and another dataset.  An asset
    dataset's state is its pair of download and local-run flags, which
    [mark_local] sets. *)
Module HookExamples.

Definition mark_local (azure_config : string) (download : bool)
    (d : AssetDataSet (bool * bool)) : AssetDataSet (bool * bool) :=
  mkAsset (asset_version d) (download, true).

Definition catalog : gmap string (DataSet (bool * bool) string) :=
  {[ "sales" := Asset (mkAsset (Some (mkVersion (Some "3") None)) (false, false));
     "features" := Asset (mkAsset (Some (mkVersion None None)) (false, false));
     "model" := Other "pickle" ]}.

Definition plain_catalog : gmap string (DataSet (bool * bool) string) :=
  {[ "model" := Other "pickle" ]}.

Definition runner (name : string) : gmap string string := {[ "runner" := name ]}.

Definition loader (patterns : gmap string (list string)) (key : string)
    : HookError + gmap string string :=
  match patterns !! key with
  | Some _ => inr {[ "azure" := "workspace" ]}
  | None => inl (HookKeyError key)
  end.

(** A loader that has no [azureml] configuration to give. *)
Definition failing_loader (patterns : gmap string (list string)) (key : string)
    : HookError + gmap string string :=
  inl (HookKeyError key).

Definition init (raw : string) : HookError + string := inr raw.

End HookExamples.

(** ** Reasoning principles for the monad *)

Section MonadLemmas.
Context {St A B : Type}.
Implicit Types (m : M St A) (f : A → M St B).

Lemma bind_ok m f s a s' : m s = (Ok a, s') → (m ≫= f) s = f a s'.
Proof. intros H. unfold mbind, M_bind. by rewrite H. Qed.

Lemma bind_raise m f s e s' :
  m s = (Raise e, s') → (m ≫= f) s = (Raise e, s').
Proof. intros H. unfold mbind, M_bind. by rewrite H. Qed.

End MonadLemmas.

Section MonadLemmasMore.
Context {St A B C : Type}.
Implicit Types (m : M St A) (f : A → M St B) (g : B → M St C).

Lemma bind_bind m f g s : ((m ≫= f) ≫= g) s = (m ≫= (λ x, f x ≫= g)) s.
Proof. unfold mbind, M_bind. by destruct (m s) as [[a|e] s1]. Qed.

Lemma ret_ok (a : A) s : (mret a : M St A) s = (Ok a, s).
Proof. done. Qed.

Lemma try_ok m catches (h : M St A) s a s' :
  m s = (Ok a, s') → try_except m catches h s = (Ok a, s').
Proof. unfold try_except. by intros ->. Qed.

Lemma try_caught m catches (h : M St A) s e s' :
  m s = (Raise e, s') → catches e = true → try_except m catches h s = h s'.
Proof. unfold try_except. by intros -> ->. Qed.

Lemma try_uncaught m catches (h : M St A) s e s' :
  m s = (Raise e, s') → catches e = false →
  try_except m catches h s = (Raise e, s').
Proof. unfold try_except. by intros -> ->. Qed.
End MonadLemmasMore.

(** Runs the head of a sequence of binds whose outcome [H] states. *)
Tactic Notation "step" open_constr(H) :=
  rewrite ?bind_bind;
  first [ erewrite (bind_ok _ _ _ _ _ H) | erewrite (bind_raise _ _ _ _ _ H) ];
  cbv beta.

(** Unfolds the monad down to functions on states. *)
Ltac run :=
  repeat (unfold mbind, M_bind, mret, M_ret, gets, modify, raise, log,
            set_version_cache, from_inner, try_except; simpl).

(** ** Version resolution *)

Section Resolution.
Variable remote : RemoteStore.
Implicit Types (s : State) (v : string).

Lemma explicit_resolves s v :
  explicit_load_version (self s) = Some v →
  resolve_load_version remote s = (Ok v, s).
Proof.
  unfold explicit_load_version, resolve_load_version. intros H. run.
  destruct (_version (self s)) as [[[l|] sv]|]; simpl in *; congruence.
Qed.

Lemma not_explicit_fetches s :
  explicit_load_version (self s) = None →
  resolve_load_version remote s = _fetch_latest_load_version remote s.
Proof.
  unfold explicit_load_version, resolve_load_version. intros H. run.
  destruct (_version (self s)) as [[[l|] sv]|]; simpl in *; congruence.
Qed.

Lemma cached_resolves s v :
  explicit_load_version (self s) = None →
  _version_cache (self s) !! "load" = Some v →
  resolve_load_version remote s = (Ok v, s).
Proof.
  intros He Hc. rewrite not_explicit_fetches by done.
  unfold _fetch_latest_load_version, cachedmethod. run. by rewrite Hc.
Qed.

Lemma known_resolves s v :
  known_load_version (self s) = Some v →
  resolve_load_version remote s = (Ok v, s).
Proof.
  unfold known_load_version.
  destruct (explicit_load_version (self s)) as [w|] eqn:He; intros H.
  - inversion H; subst. by apply explicit_resolves.
  - by apply cached_resolves.
Qed.

Lemma miss_found s a :
  explicit_load_version (self s) = None →
  _version_cache (self s) !! "load" = None →
  data_get_latest remote (_azureml_dataset (self s)) = Some a →
  resolve_load_version remote s = (Ok (Asset.version a), after_fetch s (Asset.version a)).
Proof.
  intros He Hc Hl. rewrite not_explicit_fetches by done.
  unfold _fetch_latest_load_version, cachedmethod. run. rewrite Hc.
  unfold _get_latest_version, ml_client_data_get_latest, _get_azureml_client. run.
  by rewrite Hl.
Qed.

Lemma miss_absent s :
  explicit_load_version (self s) = None →
  _version_cache (self s) !! "load" = None →
  data_get_latest remote (_azureml_dataset (self s)) = None →
  resolve_load_version remote s = (Raise DataSetNotFoundError, after_lookup s).
Proof.
  intros He Hc Hl. rewrite not_explicit_fetches by done.
  unfold _fetch_latest_load_version, cachedmethod. run. rewrite Hc.
  unfold _get_latest_version, ml_client_data_get_latest, _get_azureml_client. run.
  by rewrite Hl.
Qed.

Lemma known_None s :
  known_load_version (self s) = None →
  explicit_load_version (self s) = None ∧ _version_cache (self s) !! "load" = None.
Proof.
  unfold known_load_version.
  by destruct (explicit_load_version (self s)).
Qed.

Lemma resolve_load_version_outcome s r s1 :
  resolve_load_version remote s = (r, s1) → resolve_outcome remote s r s1.
Proof.
  destruct (known_load_version (self s)) as [v|] eqn:Hk.
  - rewrite (known_resolves _ _ Hk). intros [= <- <-]. by constructor.
  - destruct (known_None _ Hk) as [He Hc].
    destruct (data_get_latest remote (_azureml_dataset (self s))) as [a|] eqn:Hl.
    + rewrite (miss_found _ _ He Hc Hl). intros [= <- <-]. by constructor.
    + rewrite (miss_absent _ He Hc Hl). intros [= <- <-]. by constructor.
Qed.

Lemma after_fetch_known s v :
  explicit_load_version (self s) = None →
  known_load_version (self (after_fetch s v)) = Some v.
Proof.
  intros He. unfold known_load_version, explicit_load_version in *. simpl.
  rewrite He. apply lookup_insert_eq.
Qed.

(** Once a version has been returned, it is known to the instance. *)
Lemma resolved_is_known s v s1 :
  resolve_load_version remote s = (Ok v, s1) →
  known_load_version (self s1) = Some v.
Proof.
  intros H. apply resolve_load_version_outcome in H.
  inversion H as [w Hk|a Hk Hl|]; subst; [done|].
  apply after_fetch_known. by apply known_None.
Qed.

(** Resolution changes nothing of the instance but its cache, and nothing
    of the local files. *)
Lemma resolve_frame s r s1 :
  resolve_load_version remote s = (r, s1) →
  self s1 = with_cache (self s) (_version_cache (self s1))
  ∧ local_files s1 = local_files s ∧ transfers s1 = transfers s.
Proof.
  intros H. apply resolve_load_version_outcome in H.
  destruct H; simpl; repeat split; by destruct (self s).
Qed.

End Resolution.

(** ** Construction (C2) *)



(** ** Version resolution (C4, C5) *)

Lemma latest_lookups_app (s : State) (l : list Call) :
  List.filter is_latest_lookup (calls s ++ l)
  = latest_lookups s ++ List.filter is_latest_lookup l.
Proof. unfold latest_lookups. apply List.filter_app. Qed.

(** C5: an explicit load version [V] supplied at construction is returned
    unchanged, and the state, with it the log of remote calls, is left as it
    was: no remote call is issued. *)
Theorem explicit_version_no_remote_call (remote : RemoteStore) (s : State)
    (V : string) (sv : option string) :
  _version (self s) = Some (mkVersion (Some V) sv) →
  resolve_load_version remote s = (Ok V, s).
Proof.
  intros H. apply explicit_resolves.
  unfold explicit_load_version. by rewrite H.
Qed.

Lemma explicit_version_no_remote_call_witness :
  let s := Examples.start (Examples.dataset (Examples.pinned "7") true true "orders.csv") in
  resolve_load_version Examples.empty_store s = (Ok "7", s).
Proof.
  apply (explicit_version_no_remote_call Examples.empty_store _ "7" None).
  reflexivity.
Defined.

(** C4, as amended: on an instance with no explicit load version whose load
    slot is still empty, if the remote store has a latest version of the
    asset, the first call returns it after exactly one latest-version lookup
    and stores it in the load slot, and a second call, whatever the remote
    store then holds, returns the identical version and leaves the state,
    hence the log, as it is; if the asset is absent nothing is stored: each
    of the two calls raises the not-found error and issues its own lookup. *)
Theorem latest_version_cached_once_found (remote remote' : RemoteStore) (s : State) :
  explicit_load_version (self s) = None →
  _version_cache (self s) !! "load" = None →
  let lookup := DataGetLatest (_azureml_dataset (self s)) in
  match data_get_latest remote (_azureml_dataset (self s)) with
  | Some a =>
      ∃ s1,
        resolve_load_version remote s = (Ok (Asset.version a), s1)
        ∧ resolve_load_version remote' s1 = (Ok (Asset.version a), s1)
        ∧ _version_cache (self s1) !! "load" = Some (Asset.version a)
        ∧ latest_lookups s1 = latest_lookups s ++ [lookup]
  | None =>
      ∃ s1 s2,
        resolve_load_version remote s = (Raise DataSetNotFoundError, s1)
        ∧ resolve_load_version remote s1 = (Raise DataSetNotFoundError, s2)
        ∧ _version_cache (self s2) !! "load" = None
        ∧ latest_lookups s2 = latest_lookups s ++ [lookup; lookup]
  end.
Proof.
  intros He Hc lookup.
  destruct (data_get_latest remote (_azureml_dataset (self s))) as [a|] eqn:Hl.
  - exists (after_fetch s (Asset.version a)). split; [by apply miss_found|].
    assert (Hc' : _version_cache (self (after_fetch s (Asset.version a))) !! "load"
                  = Some (Asset.version a)) by (simpl; apply lookup_insert_eq).
    split; [by apply cached_resolves|]. split; [done|].
    unfold latest_lookups at 1. simpl. by rewrite latest_lookups_app.
  - exists (after_lookup s), (after_lookup (after_lookup s)).
    split; [by apply miss_absent|]. split; [by apply miss_absent|].
    split; [done|].
    unfold latest_lookups at 1. simpl.
    rewrite <- app_assoc. by rewrite latest_lookups_app.
Qed.

Lemma latest_version_cached_once_found_witness :
  let s := Examples.start (Examples.dataset Examples.unpinned true true "orders.csv") in
  ∃ s1,
    resolve_load_version Examples.store s = (Ok "3", s1)
    ∧ resolve_load_version Examples.empty_store s1 = (Ok "3", s1)
    ∧ _version_cache (self s1) !! "load" = Some "3"
    ∧ latest_lookups s1 = latest_lookups s ++ [DataGetLatest "sales"].
Proof.
  apply (latest_version_cached_once_found Examples.store Examples.empty_store
           (Examples.start (Examples.dataset Examples.unpinned true true "orders.csv")));
    reflexivity.
Defined.

(** C4 as stated fails when the named asset is absent from the remote store:
    neither call returns a version, and the two calls issue two lookups. *)
Lemma latest_lookup_repeated_when_absent :
  let s := Examples.start (Examples.dataset Examples.unpinned true true "orders.csv") in
  explicit_load_version (self s) = None
  ∧ (∃ s1 s2,
       resolve_load_version Examples.empty_store s = (Raise DataSetNotFoundError, s1)
       ∧ resolve_load_version Examples.empty_store s1 = (Raise DataSetNotFoundError, s2)
       ∧ latest_lookups s2 = [DataGetLatest "sales"; DataGetLatest "sales"])
  ∧ ¬ (∃ v s1 s2,
         resolve_load_version Examples.empty_store s = (Ok v, s1)
         ∧ resolve_load_version Examples.empty_store s1 = (Ok v, s2)
         ∧ length (latest_lookups s2) = length (latest_lookups s) + 1).
Proof.
  split; [reflexivity|]. split.
  - eexists _, _. repeat split; vm_compute; reflexivity.
  - intros (v & s1 & s2 & H1 & _). vm_compute in H1. discriminate H1.
Qed.

(** ** Path layout and download target (C1, C9) *)

Section PathLayout.
Variable remote : RemoteStore.
Implicit Types (s : State) (v fp : string).

Lemma path_remote_run s v fp :
  _local_run (self s) = false → has_filepath (self s) fp →
  path remote s = (Ok (resolved_local_path (self s) v fp), s).
Proof.
  unfold has_filepath, path, resolved_local_path, dataset_config_filepath.
  intros Hm Hf. run. rewrite Hm, Hf. by run.
Qed.

Lemma resolved_local_path_with_cache d c v fp :
  resolved_local_path (with_cache d c) v fp = resolved_local_path d v fp.
Proof. done. Qed.

Lemma path_local_run s v s1 fp :
  _local_run (self s) = true → has_filepath (self s) fp →
  resolve_load_version remote s = (Ok v, s1) →
  path remote s = (Ok (resolved_local_path (self s) v fp), s1).
Proof.
  unfold has_filepath, path, resolved_local_path, dataset_config_filepath.
  intros Hm Hf Hr. run. rewrite Hm, Hr.
  destruct (resolve_frame _ _ _ _ Hr) as (-> & _ & _). simpl. rewrite Hf. by run.
Qed.

Lemma path_local_run_raise s e s1 :
  _local_run (self s) = true →
  resolve_load_version remote s = (Raise e, s1) →
  path remote s = (Raise e, s1).
Proof. unfold path. intros Hm Hr. run. by rewrite Hm, Hr. Qed.

(** The path of an instance that needs no remote lookup for it. *)
Lemma path_settled s v fp :
  has_filepath (self s) fp →
  (_local_run (self s) = true → known_load_version (self s) = Some v) →
  path remote s = (Ok (resolved_local_path (self s) v fp), s).
Proof.
  intros Hf Hk. destruct (_local_run (self s)) eqn:Hm.
  - apply path_local_run; [done..|]. apply known_resolves. by apply Hk.
  - by apply path_remote_run.
Qed.

(** Whatever [path] returns for a file path [fp] is the resolved local
    path for some version, which the instance knows from then on. *)
Lemma path_inv s fp P s1 :
  has_filepath (self s) fp →
  path remote s = (Ok P, s1) →
  ∃ v, P = resolved_local_path (self s) v fp
       ∧ has_filepath (self s1) fp
       ∧ resolved_local_path (self s1) v fp = resolved_local_path (self s) v fp
       ∧ local_files s1 = local_files s ∧ transfers s1 = transfers s
       ∧ (_local_run (self s1) = true → known_load_version (self s1) = Some v).
Proof.
  intros Hf Hp. destruct (_local_run (self s)) eqn:Hm.
  - destruct (resolve_load_version remote s) as [[v|e] s'] eqn:Hr.
    + rewrite (path_local_run _ _ _ _ Hm Hf Hr) in Hp.
      injection Hp as <- <-. exists v.
      destruct (resolve_frame _ _ _ _ Hr) as (Hs & Hl & Ht).
      rewrite Hs at 1 2 3. rewrite resolved_local_path_with_cache.
      repeat split; try done. intros _. by eapply resolved_is_known.
    + rewrite (path_local_run_raise _ _ _ Hm Hr) in Hp. discriminate.
  - rewrite (path_remote_run _ "" _ Hm Hf) in Hp. injection Hp as <- <-.
    exists "". repeat split; try done. rewrite Hm. discriminate.
Qed.

Lemma download_path_ok s fp P s1 :
  has_filepath (self s) fp →
  path remote s = (Ok P, s1) →
  download_path remote s = (Ok (download_target P), s1).
Proof.
  intros Hf Hp. destruct (path_inv _ _ _ _ Hf Hp) as (v & HP & Hf1 & Heq & _ & _ & Hk).
  assert (Hp1 : path remote s1 = (Ok P, s1)).
  { rewrite (path_settled s1 v fp Hf1 Hk). by rewrite Heq, HP. }
  unfold download_path, download_target. run. rewrite Hp.
  destruct (negb (String.eqb (suffix P) "")); by rewrite Hp1.
Qed.

Lemma joinpath_relative p q :
  is_absolute q = false →
  joinpath p q = mkPath (root p) (segments p ++ segments q).
Proof. unfold joinpath. by intros ->. Qed.

Lemma joinpath_name p q : segments q ≠ [] → name (joinpath p q) = name q.
Proof.
  intros Hq. unfold joinpath, name. destruct (is_absolute q); [done|]. simpl.
  destruct (segments q) as [|x l]; [done|].
  clear Hq. induction (segments p) as [|y t IH]; [done|].
  simpl. destruct (t ++ x :: l) eqn:E; [|done].
  by destruct t.
Qed.

Lemma resolved_local_path_suffix d v fp :
  segments (parse fp) ≠ [] →
  suffix (resolved_local_path d v fp) = suffix (parse fp).
Proof.
  intros H. unfold suffix, resolved_local_path.
  destruct (_local_run d); by rewrite joinpath_name.
Qed.

End PathLayout.

(** C1, as amended: for an instance holding the string [fp] as inner file
    path, in local-run mode, when version resolution returns [v], the path is
    [Path(folder) / asset / v / Path(fp)] under the join of [pathlib], in the
    state resolution left; if the asset name, [v] and [fp] are relative
    paths, its segments are those of the folder, of the asset name, of [v]
    and of [fp], in this order, so that a version that is one plain segment
    is the segment right after the asset name.  In remote-run mode the path
    is [Path(folder) / Path(fp)], the state is untouched (no version is
    resolved) and, for a relative [fp], the segments are those of the folder
    followed by those of [fp]. *)
Theorem path_layout (remote : RemoteStore) (s : State) (fp : string) :
  has_filepath (self s) fp →
  let d := self s in
  (_local_run d = true →
   ∀ v s1, resolve_load_version remote s = (Ok v, s1) →
     ∃ P, path remote s = (Ok P, s1)
       ∧ P = joinpath (joinpath (joinpath (parse (folder d))
                                          (parse (_azureml_dataset d)))
                                (parse v))
                      (parse fp)
       ∧ (is_absolute (parse (_azureml_dataset d)) = false →
          is_absolute (parse v) = false →
          is_absolute (parse fp) = false →
          root P = root (parse (folder d))
          ∧ segments P = segments (parse (folder d))
                         ++ segments (parse (_azureml_dataset d))
                         ++ segments (parse v) ++ segments (parse fp)
          ∧ (segments (parse v) = [v] →
             segments P !! (length (segments (parse (folder d)))
                            + length (segments (parse (_azureml_dataset d))))
             = Some v)))
  ∧
  (_local_run d = false →
     ∃ P, path remote s = (Ok P, s)
       ∧ P = joinpath (parse (folder d)) (parse fp)
       ∧ (is_absolute (parse fp) = false →
          root P = root (parse (folder d))
          ∧ segments P = segments (parse (folder d)) ++ segments (parse fp))).
Proof.
  intros Hf d. split.
  - intros Hm v s1 Hr. eexists. split; [by apply path_local_run|].
    unfold resolved_local_path. fold d. rewrite Hm. split; [done|].
    intros Ha Hv Hp. rewrite !joinpath_relative by done. simpl.
    split; [done|]. rewrite <- !app_assoc. split; [done|].
    intros ->. rewrite app_assoc, lookup_app_r by (rewrite length_app; lia).
    rewrite length_app, Nat.sub_diag. done.
  - intros Hm. eexists. split; [by apply (path_remote_run _ _ "")|].
    unfold resolved_local_path. fold d. rewrite Hm. split; [done|].
    intros Hp. by rewrite joinpath_relative.
Qed.

Lemma path_layout_witness :
  let local := Examples.start (Examples.dataset (Examples.pinned "3") false true "orders.csv") in
  let cloud := Examples.start (Examples.dataset (Examples.pinned "3") false false "orders.csv") in
  (∃ P, path Examples.store local = (Ok P, local)
        ∧ to_str P = "data/sales/3/orders.csv"
        ∧ segments P !! 2 = Some "3")
  ∧ (∃ P, path Examples.store cloud = (Ok P, cloud) ∧ to_str P = "data/orders.csv").
Proof.
  intros local cloud. split.
  - destruct (proj1 (path_layout Examples.store local "orders.csv" eq_refl)
                eq_refl "3" local eq_refl) as (P & Hp & HP & Hs).
    exists P. split; [exact Hp|]. split.
    + rewrite HP. reflexivity.
    + apply (Hs eq_refl eq_refl eq_refl). reflexivity.
  - destruct (proj2 (path_layout Examples.store cloud "orders.csv" eq_refl) eq_refl)
      as (P & Hp & HP & Hs).
    exists P. split; [exact Hp|]. rewrite HP. reflexivity.
Defined.

(** C1 as stated fails for an absolute inner file path: the join of
    [pathlib] lets it replace everything before it, so that in local-run
    mode the path has no version segment, and in neither mode does it lie
    under the folder root. *)
Lemma absolute_filepath_replaces_layout :
  let local := Examples.start (Examples.dataset (Examples.pinned "3") false true "/tmp/orders.csv") in
  let cloud := Examples.start (Examples.dataset (Examples.pinned "3") false false "/tmp/orders.csv") in
  resolve_load_version Examples.store local = (Ok "3", local)
  ∧ (∃ P, path Examples.store local = (Ok P, local)
          ∧ to_str P = "/tmp/orders.csv"
          ∧ segments P = ["tmp"; "orders.csv"]
          ∧ "3" ∉ segments P)
  ∧ (∃ P, path Examples.store cloud = (Ok P, cloud) ∧ to_str P = "/tmp/orders.csv").
Proof.
  split; [reflexivity|]. split.
  - eexists. split; [reflexivity|]. split; [reflexivity|]. split; [reflexivity|].
    simpl. intros H. apply list_elem_of_In in H. simpl in H.
    destruct H as [H|[H|[]]]; discriminate H.
  - eexists. split; reflexivity.
Qed.




(** ** Loading *)

Section Load.
Variable remote : RemoteStore.
Variable inner : InnerDataSetType.
Implicit Types (s : State) (v fp : string).

Lemma fs_download_append fpath target s :
  fs_download fpath target "APPEND" s = (Ok tt, after_download fpath target s).
Proof.
  unfold fs_download, after_download, logged. run.
  by destruct (bool_decide _).
Qed.

Lemma after_download_self fpath target s :
  self (after_download fpath target s) = self s.
Proof. unfold after_download. by destruct (bool_decide _). Qed.

Lemma after_downloads_self target l s :
  self (after_downloads target l s) = self s.
Proof.
  revert s. induction l as [|f l IH]; intros s; [done|].
  simpl. by rewrite IH, after_download_self.
Qed.

(** The loop, when the download target needs no remote lookup. *)
Lemma download_loop target l s :
  (∀ s', self s' = self s → download_path remote s' = (Ok target, s')) →
  for_each l (λ fpath, t ← download_path remote; fs_download fpath t "APPEND") s
  = (Ok tt, after_downloads target l s).
Proof.
  revert s. induction l as [|f l IH]; intros s Ht; [done|].
  simpl. run. rewrite (Ht s eq_refl), fs_download_append.
  apply IH. intros s' Hs'. apply Ht. by rewrite Hs', after_download_self.
Qed.

Lemma get_asset_found s v s1 a :
  resolve_load_version remote s = (Ok v, s1) →
  data_get remote (_azureml_dataset (self s)) v = Some a →
  _get_azureml_dataset remote s = (Ok a, logged [DataGet (_azureml_dataset (self s)) v] s1).
Proof.
  intros Hr Ha. unfold _get_azureml_dataset, ml_client_data_get, _get_azureml_client. run.
  by rewrite Hr, Ha.
Qed.

Lemma get_asset_missing s v s1 :
  resolve_load_version remote s = (Ok v, s1) →
  data_get remote (_azureml_dataset (self s)) v = None →
  _get_azureml_dataset remote s
  = (Raise ResourceNotFoundError, logged [DataGet (_azureml_dataset (self s)) v] s1).
Proof.
  intros Hr Ha. unfold _get_azureml_dataset, ml_client_data_get, _get_azureml_client. run.
  by rewrite Hr, Ha.
Qed.

Lemma get_asset_unresolved s e s1 :
  resolve_load_version remote s = (Raise e, s1) →
  _get_azureml_dataset remote s = (Raise e, s1).
Proof.
  intros Hr. unfold _get_azureml_dataset. run. by rewrite Hr.
Qed.

Lemma logged_logged l1 l2 s : logged l2 (logged l1 s) = logged (l1 ++ l2) s.
Proof. unfold logged. simpl. by rewrite app_assoc. Qed.

Lemma construct_and_load s P s1 :
  path remote s = (Ok P, s1) →
  (ds ← _construct_dataset remote; inner_dataset_load inner ds) s
  = (inner_result inner (inner_config (self s) P) (local_files s1),
     logged [InnerLoad (inner_config (self s) P)] s1).
Proof.
  intros Hp. unfold _construct_dataset, inner_dataset_load, inner_result, inner_config.
  run. rewrite Hp. unfold logged. simpl. by destruct (inner_load _ _ _).
Qed.

Lemma construct_and_load_raise s e s1 :
  path remote s = (Raise e, s1) →
  (ds ← _construct_dataset remote; inner_dataset_load inner ds) s = (Raise e, s1).
Proof.
  intros Hp. unfold _construct_dataset. run. by rewrite Hp.
Qed.



Lemma open_file_system uri s :
  AzureMachineLearningFileSystem uri s = (Ok uri, logged [FileSystem uri] s).
Proof. done. Qed.

Lemma fs_ls_listing fs p s :
  fs_ls remote fs p s = (Ok (ls remote fs p), logged [Ls p] s).
Proof. done. Qed.

Lemma path_on_azure_assigned (a : Asset.t) s fp :
  has_filepath (self s) fp →
  (if String.eqb (Asset.type a) "uri_file" then
     mret (Some (infer_storage_options remote (Asset.path a)))
   else if String.eqb (Asset.type a) "uri_folder" then
     let dataset_root_on_azure := infer_storage_options remote (Asset.path a) in
     f ← dataset_config_filepath;
     q ← as_path f;
     mret (Some (to_str (joinpath (parse dataset_root_on_azure) q)))
   else mret None) s
  = (Ok (relevant_remote_path remote a fp), s).
Proof.
  unfold has_filepath, relevant_remote_path, dataset_config_filepath. intros Hf.
  destruct (String.eqb (Asset.type a) "uri_file"); [done|].
  destruct (String.eqb (Asset.type a) "uri_folder"); [|done].
  run. by rewrite Hf.
Qed.

Lemma download_path_settled s v fp s' :
  has_filepath (self s) fp →
  (_local_run (self s) = true → known_load_version (self s) = Some v) →
  self s' = self s →
  download_path remote s'
  = (Ok (download_target (resolved_local_path (self s) v fp)), s').
Proof.
  intros Hf Hk Hs. rewrite <- Hs in *.
  apply (download_path_ok remote s' fp). { done. }
  by apply path_settled.
Qed.

(** After a successful resolution the instance is settled: its file path
    is unchanged and the version is known. *)
Lemma resolved_settled s v s1 fp :
  has_filepath (self s) fp →
  resolve_load_version remote s = (Ok v, s1) →
  has_filepath (self s1) fp
  ∧ known_load_version (self s1) = Some v
  ∧ resolved_local_path (self s1) v fp = resolved_local_path (self s) v fp
  ∧ inner_config (self s1) = inner_config (self s)
  ∧ _azureml_dataset (self s1) = _azureml_dataset (self s)
  ∧ _download (self s1) = _download (self s).
Proof.
  intros Hf Hr. destruct (resolve_frame _ _ _ _ Hr) as (Hs & _ & _).
  split; [by rewrite Hs|]. split; [by eapply resolved_is_known|].
  by rewrite Hs.
Qed.

Lemma load_downloads s v s1 a fp p :
  _download (self s) = true → has_filepath (self s) fp →
  resolve_load_version remote s = (Ok v, s1) →
  data_get remote (_azureml_dataset (self s)) v = Some a →
  relevant_remote_path remote a fp = Some p →
  let P := resolved_local_path (self s) v fp in
  let s2 := after_downloads (download_target P) (ls remote (Asset.path a) p)
              (logged [DataGet (_azureml_dataset (self s)) v;
                       FileSystem (Asset.path a); Ls p] s1) in
  _load remote inner s
  = (inner_result inner (inner_config (self s) P) (local_files s2),
     logged [InnerLoad (inner_config (self s) P)] s2).
Proof.
  intros Hd Hf Hr Ha Hp P s2.
  destruct (resolved_settled _ _ _ _ Hf Hr) as (Hf1 & Hk1 & HP1 & Hc1 & _).
  unfold _load.
  step (eq_refl : gets self s = (Ok (self s), s)). rewrite Hd.
  step (try_ok _ is_ResourceNotFoundError
          (v ← resolve_load_version remote; raise (VersionNotFoundError v))
          _ _ _ (get_asset_found _ _ _ _ Hr Ha)).
  step (open_file_system (Asset.path a) (logged [DataGet (_azureml_dataset (self s)) v] s1)).
  rewrite logged_logged.
  step (path_on_azure_assigned a (logged _ s1) fp Hf1). rewrite Hp.
  step (eq_refl : read_local "path_on_azure" (Some p) (logged _ s1) = (_, _)).
  step (fs_ls_listing (Asset.path a) p (logged ([DataGet (_azureml_dataset (self s)) v] ++ [FileSystem (Asset.path a)]) s1)).
  rewrite logged_logged. simpl app.
  assert (Ht : ∀ s', self s' = self s1 →
               download_path remote s' = (Ok (download_target P), s')).
  { intros s' Hs'. rewrite (download_path_settled s1 v fp s' Hf1 (λ _, Hk1) Hs').
    by rewrite HP1. }
  step (download_loop (download_target P) (ls remote (Asset.path a) p)
          (logged _ s1) Ht).
  fold s2.
  assert (Hs2 : self s2 = self s1) by (unfold s2; by rewrite after_downloads_self).
  rewrite (construct_and_load s2 P s2).
  - by rewrite Hs2, Hc1.
  - subst P. rewrite <- HP1, <- Hs2. apply path_settled; rewrite Hs2; [done|].
    by intros _.
Qed.

(** Using the inner file path as a path changes no state. *)
Lemma filepath_as_path {A} (g : Path → A) s :
  (f ← dataset_config_filepath; q ← as_path f; mret (g q)) s
  = (match filepath_error (self s) with
     | Some e => Raise e
     | None =>
         match _dataset_config (self s) !! _filepath_arg (self s) with
         | Some (VStr fp) => Ok (g (parse fp))
         | _ => Raise TypeError
         end
     end, s).
Proof.
  unfold filepath_error, dataset_config_filepath. run.
  destruct (_dataset_config (self s) !! _filepath_arg (self s)) as [[]|]; done.
Qed.

Lemma filepath_error_None d :
  filepath_error d = None → ∃ fp, has_filepath d fp.
Proof.
  unfold filepath_error, has_filepath.
  destruct (_dataset_config d !! _filepath_arg d) as [[]|]; try done. eauto.
Qed.

Lemma path_bad_config s e :
  filepath_error (self s) = Some e →
  (_local_run (self s) = true → is_Some (known_load_version (self s))) →
  path remote s = (Raise e, s).
Proof.
  intros He Hk. unfold path.
  step (eq_refl : gets self s = (Ok (self s), s)).
  destruct (_local_run (self s)).
  - destruct (Hk eq_refl) as [v Hv].
    step (known_resolves remote s v Hv).
    rewrite filepath_as_path. by rewrite He.
  - rewrite filepath_as_path. by rewrite He.
Qed.

(** The state [path] leaves is the one version resolution leaves in
    local-run mode, and the one it found otherwise. *)
Lemma path_state s r s1 :
  path remote s = (r, s1) →
  if _local_run (self s) then ∃ r', resolve_load_version remote s = (r', s1)
  else s1 = s.
Proof.
  unfold path. step (eq_refl : gets self s = (Ok (self s), s)).
  destruct (_local_run (self s)).
  - destruct (resolve_load_version remote s) as [[v|e] s'] eqn:Hr.
    + step Hr. rewrite filepath_as_path. intros [= _ <-]. eauto.
    + step Hr. intros [= _ <-]. eauto.
  - rewrite filepath_as_path. by intros [= _ <-].
Qed.

Lemma load_without_download_eq s :
  _download (self s) = false →
  _load remote inner s
  = (ds ← _construct_dataset remote; inner_dataset_load inner ds) s.
Proof.
  intros Hd. unfold _load.
  step (eq_refl : gets self s = (Ok (self s), s)). rewrite Hd.
  by step (ret_ok tt s).
Qed.

Lemma load_asset_absent s s1 :
  _download (self s) = true →
  resolve_load_version remote s = (Raise DataSetNotFoundError, s1) →
  _load remote inner s = (Raise DataSetNotFoundError, s1).
Proof.
  intros Hd Hr. unfold _load.
  step (eq_refl : gets self s = (Ok (self s), s)). rewrite Hd.
  by step (try_uncaught _ is_ResourceNotFoundError
             (v ← resolve_load_version remote; raise (VersionNotFoundError v))
             _ _ _ (get_asset_unresolved _ _ _ Hr) eq_refl).
Qed.

Lemma load_version_absent s v s1 :
  _download (self s) = true →
  resolve_load_version remote s = (Ok v, s1) →
  data_get remote (_azureml_dataset (self s)) v = None →
  _load remote inner s
  = (Raise (VersionNotFoundError v), logged [DataGet (_azureml_dataset (self s)) v] s1).
Proof.
  intros Hd Hr Ha. unfold _load.
  step (eq_refl : gets self s = (Ok (self s), s)). rewrite Hd.
  assert (Hh : (v ← resolve_load_version remote;
                raise (VersionNotFoundError v) : M State Asset.t)
                 (logged [DataGet (_azureml_dataset (self s)) v] s1)
               = (Raise (VersionNotFoundError v),
                  logged [DataGet (_azureml_dataset (self s)) v] s1)).
  { erewrite bind_ok; [done|]. apply known_resolves. simpl.
    by eapply resolved_is_known. }
  by step (eq_trans
             (try_caught _ is_ResourceNotFoundError _ _ _ _
                (get_asset_missing _ _ _ Hr Ha) eq_refl) Hh).
Qed.

Lemma load_type_unsupported s v s1 a :
  _download (self s) = true →
  resolve_load_version remote s = (Ok v, s1) →
  data_get remote (_azureml_dataset (self s)) v = Some a →
  String.eqb (Asset.type a) "uri_file" = false →
  String.eqb (Asset.type a) "uri_folder" = false →
  _load remote inner s
  = (Raise (UnboundLocalError "path_on_azure"),
     logged [DataGet (_azureml_dataset (self s)) v; FileSystem (Asset.path a)] s1).
Proof.
  intros Hd Hr Ha Hfile Hfolder. unfold _load.
  step (eq_refl : gets self s = (Ok (self s), s)). rewrite Hd.
  step (try_ok _ is_ResourceNotFoundError
          (v ← resolve_load_version remote; raise (VersionNotFoundError v))
          _ _ _ (get_asset_found _ _ _ _ Hr Ha)).
  step (open_file_system (Asset.path a) (logged [DataGet (_azureml_dataset (self s)) v] s1)).
  rewrite logged_logged, Hfile, Hfolder.
  step (ret_ok (None : option string) (logged _ s1)).
  by step (eq_refl : read_local "path_on_azure" None (logged _ s1) = (Raise _, _)).
Qed.

Lemma filepath_error_resolved s r s1 :
  resolve_load_version remote s = (r, s1) →
  filepath_error (self s1) = filepath_error (self s).
Proof.
  intros Hr. destruct (resolve_frame _ _ _ _ Hr) as (Hs & _ & _). by rewrite Hs.
Qed.

Lemma download_path_bad_config s e :
  filepath_error (self s) = Some e →
  (_local_run (self s) = true → is_Some (known_load_version (self s))) →
  download_path remote s = (Raise e, s).
Proof.
  intros He Hk. unfold download_path. by step (path_bad_config s e He Hk).
Qed.

Lemma load_folder_bad_filepath s v s1 a e :
  _download (self s) = true →
  resolve_load_version remote s = (Ok v, s1) →
  data_get remote (_azureml_dataset (self s)) v = Some a →
  String.eqb (Asset.type a) "uri_file" = false →
  String.eqb (Asset.type a) "uri_folder" = true →
  filepath_error (self s) = Some e →
  _load remote inner s
  = (Raise e,
     logged [DataGet (_azureml_dataset (self s)) v; FileSystem (Asset.path a)] s1).
Proof.
  intros Hd Hr Ha Hfile Hfolder He. unfold _load.
  rewrite <- (filepath_error_resolved _ _ _ Hr) in He.
  step (eq_refl : gets self s = (Ok (self s), s)). rewrite Hd.
  step (try_ok _ is_ResourceNotFoundError
          (v ← resolve_load_version remote; raise (VersionNotFoundError v))
          _ _ _ (get_asset_found _ _ _ _ Hr Ha)).
  step (open_file_system (Asset.path a) (logged [DataGet (_azureml_dataset (self s)) v] s1)).
  rewrite logged_logged, Hfile, Hfolder. cbv zeta.
  erewrite bind_raise; [done|]. apply bind_raise.
  rewrite (filepath_as_path
             (λ q, Some (to_str (joinpath
                                   (parse (infer_storage_options remote (Asset.path a)))
                                   q)))).
  simpl. by rewrite He.
Qed.

Lemma load_file_bad_filepath s v s1 a e :
  _download (self s) = true →
  resolve_load_version remote s = (Ok v, s1) →
  data_get remote (_azureml_dataset (self s)) v = Some a →
  String.eqb (Asset.type a) "uri_file" = true →
  filepath_error (self s) = Some e →
  _load remote inner s
  = (Raise e,
     logged [DataGet (_azureml_dataset (self s)) v; FileSystem (Asset.path a);
             Ls (infer_storage_options remote (Asset.path a))] s1).
Proof.
  intros Hd Hr Ha Hfile He. unfold _load.
  rewrite <- (filepath_error_resolved _ _ _ Hr) in He.
  assert (Hk : ∀ l, _local_run (self (logged l s1)) = true →
                    is_Some (known_load_version (self (logged l s1)))).
  { intros l _. simpl. rewrite (resolved_is_known _ _ _ _ Hr). eauto. }
  step (eq_refl : gets self s = (Ok (self s), s)). rewrite Hd.
  step (try_ok _ is_ResourceNotFoundError
          (v ← resolve_load_version remote; raise (VersionNotFoundError v))
          _ _ _ (get_asset_found _ _ _ _ Hr Ha)).
  step (open_file_system (Asset.path a) (logged [DataGet (_azureml_dataset (self s)) v] s1)).
  rewrite logged_logged, Hfile.
  step (ret_ok (Some (infer_storage_options remote (Asset.path a))) (logged _ s1)).
  step (eq_refl : read_local "path_on_azure" (Some _) (logged _ s1) = (Ok _, _)).
  step (fs_ls_listing (Asset.path a) (infer_storage_options remote (Asset.path a))
          (logged ([DataGet (_azureml_dataset (self s)) v] ++ [FileSystem (Asset.path a)]) s1)).
  rewrite logged_logged. simpl app.
  destruct (ls remote (Asset.path a) (infer_storage_options remote (Asset.path a)))
    as [|fpath l].
  - step (ret_ok tt (logged _ s1)).
    apply construct_and_load_raise. apply path_bad_config; [exact He|apply Hk].
  - simpl for_each. rewrite ?bind_bind.
    erewrite bind_raise; [done|].
    apply download_path_bad_config; [exact He|apply Hk].
Qed.

Lemma load_outcome_complete s r s' :
  _load remote inner s = (r, s') → load_outcome remote inner s r s'.
Proof.
  destruct (_download (self s)) eqn:Hd.
  - destruct (resolve_load_version remote s) as [[v|e] s1] eqn:Hr.
    + destruct (data_get remote (_azureml_dataset (self s)) v) as [a|] eqn:Ha.
      * destruct (filepath_error (self s)) as [e|] eqn:He.
        -- destruct (String.eqb (Asset.type a) "uri_file") eqn:Hfile.
           ++ rewrite (load_file_bad_filepath _ _ _ _ _ Hd Hr Ha Hfile He).
              intros [= <- <-].
              pose proof (load_no_filepath remote inner s v s1 a e Hd Hr Ha He) as H.
              by rewrite Hfile in H.
           ++ destruct (String.eqb (Asset.type a) "uri_folder") eqn:Hfolder.
              ** rewrite (load_folder_bad_filepath _ _ _ _ _ Hd Hr Ha Hfile Hfolder He).
                 intros [= <- <-].
                 pose proof (load_no_filepath remote inner s v s1 a e Hd Hr Ha He) as H.
                 by rewrite Hfile in H.
              ** rewrite (load_type_unsupported _ _ _ _ Hd Hr Ha Hfile Hfolder).
                 intros [= <- <-]. by eapply load_no_remote_path.
        -- destruct (filepath_error_None _ He) as [fp Hf].
           destruct (relevant_remote_path remote a fp) as [p|] eqn:Hp.
           ++ rewrite (load_downloads _ _ _ _ _ _ Hd Hf Hr Ha Hp).
              intros [= <- <-]. by eapply load_downloaded.
           ++ unfold relevant_remote_path in Hp.
              destruct (String.eqb (Asset.type a) "uri_file") eqn:Hfile; [done|].
              destruct (String.eqb (Asset.type a) "uri_folder") eqn:Hfolder; [done|].
              rewrite (load_type_unsupported _ _ _ _ Hd Hr Ha Hfile Hfolder).
              intros [= <- <-]. by eapply load_no_remote_path.
      * rewrite (load_version_absent _ _ _ Hd Hr Ha). intros [= <- <-].
        by eapply load_no_version.
    + pose proof (resolve_load_version_outcome _ _ _ _ Hr) as Ho.
      inversion Ho; subst.
      rewrite (load_asset_absent _ _ Hd Hr). intros [= <- <-].
      by eapply load_no_asset.
  - rewrite (load_without_download_eq _ Hd).
    destruct (path remote s) as [[P|e] s1] eqn:Hp.
    + rewrite (construct_and_load _ _ _ Hp). intros [= <- <-].
      by eapply load_plain.
    + rewrite (construct_and_load_raise _ _ _ Hp). intros [= <- <-].
      by eapply load_plain_raise.
Qed.
End Load.

(** ** Frames of the methods *)


Lemma resolve_calls (remote : RemoteStore) (s : State) r s1 :
  resolve_load_version remote s = (r, s1) →
  calls s1 = calls s
             ++ resolution_calls (self s).
Proof.
  intros H. apply resolve_load_version_outcome in H. unfold resolution_calls.
  destruct H as [v Hk|a Hk Hl|Hk Hl]; rewrite Hk; simpl; by rewrite ?app_nil_r.
Qed.

Lemma after_downloads_calls target l s :
  calls (after_downloads target l s)
  = calls s ++ map (λ fpath, Download fpath target "APPEND") l.
Proof.
  revert s. induction l as [|f l IH]; intros s; simpl; [by rewrite app_nil_r|].
  rewrite IH. unfold after_download.
  destruct (bool_decide _); simpl; by rewrite <- app_assoc.
Qed.


Lemma filepath_error_kind d e :
  filepath_error d = Some e → e = KeyError (_filepath_arg d) ∨ e = TypeError.
Proof.
  unfold filepath_error.
  destruct (_dataset_config d !! _filepath_arg d) as [[]|]; intros [= <-]; auto.
Qed.

Lemma inner_result_wrapped inner cfg files e :
  inner_result inner cfg files = Raise e → ∃ message, e = InnerDataSetError message.
Proof.
  unfold inner_result. destruct (inner_load inner cfg files); intros [= <-]; eauto.
Qed.

Section LoadFrame.
Variable remote : RemoteStore.
Variable inner : InnerDataSetType.

Lemma filepath_as_path_not_found {A} (g : Path → A) s s1 :
  (f ← dataset_config_filepath; q ← as_path f; mret (g q)) s
  ≠ (Raise DataSetNotFoundError, s1).
Proof.
  rewrite filepath_as_path.
  destruct (filepath_error (self s)) as [e|] eqn:He.
  - destruct (filepath_error_kind _ _ He) as [-> | ->]; intros [=].
  - destruct (_dataset_config (self s) !! _filepath_arg (self s)) as [[]|];
      intros [=].
Qed.

(** When [path] raises the asset-not-found error, version resolution did. *)
Lemma path_not_found s s1 :
  path remote s = (Raise DataSetNotFoundError, s1) →
  resolve_load_version remote s = (Raise DataSetNotFoundError, s1).
Proof.
  unfold path. step (eq_refl : gets self s = (Ok (self s), s)).
  destruct (_local_run (self s)).
  - destruct (resolve_load_version remote s) as [[v|e] s'] eqn:Hr.
    + step Hr. intros H. by apply filepath_as_path_not_found in H.
    + step Hr. by intros [= -> <-].
  - intros H. by apply filepath_as_path_not_found in H.
Qed.

Lemma path_frame s r s1 :
  path remote s = (r, s1) →
  calls s1 = calls s ++ path_calls (self s)
  ∧ local_files s1 = local_files s ∧ transfers s1 = transfers s.
Proof.
  intros Hp. pose proof (path_state remote _ _ _ Hp) as Hs. unfold path_calls.
  destruct (_local_run (self s)) eqn:Hm.
  - destruct Hs as [r' Hr]. destruct (resolve_frame _ _ _ _ Hr) as (_ & Hl & Ht).
    split; [by eapply resolve_calls|]. done.
  - subst s1. by rewrite app_nil_r.
Qed.
End LoadFrame.

Lemma path_calls_remote d : List.filter is_remote (path_calls d) = path_calls d.
Proof.
  unfold path_calls, resolution_calls.
  destruct (_local_run d); [|done]. by destruct (known_load_version d).
Qed.





(** With download disabled, [_load] leaves the local files as they are. *)
Lemma plain_load_files (remote : RemoteStore) (inner : InnerDataSetType) (s : State) :
  _download (self s) = false →
  local_files (_load remote inner s).2 = local_files s
  ∧ transfers (_load remote inner s).2 = transfers s.
Proof.
  intros Hd. destruct (path remote s) as [r s1] eqn:Hp.
  destruct (path_frame remote _ _ _ Hp) as (_ & Hl & Ht).
  rewrite (load_without_download_eq remote inner _ Hd).
  destruct r as [P|e].
  - by rewrite (construct_and_load remote inner _ _ _ Hp).
  - by rewrite (construct_and_load_raise remote inner _ _ _ Hp).
Qed.

Section Additive.
Implicit Types (s : State).

Lemma additive_quiet s s' cs :
  calls s' = calls s ++ cs →
  (∀ c, c ∈ cs → is_download c = false) →
  local_files s' = local_files s → transfers s' = transfers s →
  additive s s'.
Proof.
  intros Hc Hq Hl Ht. split; [by rewrite Hl|].
  exists cs, []. rewrite app_nil_r. repeat split; try done.
  - intros f t m Hin. by apply Hq in Hin.
  - intros x Hx. by apply elem_of_nil in Hx.
Qed.

Lemma additive_refl s : additive s s.
Proof.
  apply (additive_quiet s s []); try done.
  - by rewrite app_nil_r.
  - intros c Hc. by apply elem_of_nil in Hc.
Qed.

Lemma additive_trans s1 s2 s3 : additive s1 s2 → additive s2 s3 → additive s1 s3.
Proof.
  intros (Hl1 & cs1 & ts1 & Hc1 & Ht1 & Hs1 & Hn1)
         (Hl2 & cs2 & ts2 & Hc2 & Ht2 & Hs2 & Hn2).
  split; [set_solver|]. exists (cs1 ++ cs2), (ts1 ++ ts2).
  rewrite Hc2, Hc1, Ht2, Ht1, !app_assoc. repeat split; try done.
  - intros f t m [Hin|Hin]%elem_of_app; [by eapply Hs1|by eapply Hs2].
  - intros x [Hin|Hin]%elem_of_app; [by apply Hn1|].
    apply Hn2 in Hin. set_solver.
Qed.

Lemma additive_logged l s :
  (∀ c, c ∈ l → is_download c = false) → additive s (logged l s).
Proof. intros Hq. by apply (additive_quiet s (logged l s) l). Qed.

Lemma additive_after_download fpath target s :
  additive s (after_download fpath target s).
Proof.
  unfold after_download. simpl.
  destruct (bool_decide ((target, fpath) ∈ local_files s)) eqn:Hb.
  - split; [done|]. exists [Download fpath target "APPEND"], []. simpl.
    rewrite app_nil_r. repeat split; try done.
    + intros f t m Hin. apply list_elem_of_singleton in Hin. by injection Hin.
    + intros x Hx. by apply elem_of_nil in Hx.
  - apply bool_decide_eq_false in Hb.
    split; [simpl; set_solver|].
    exists [Download fpath target "APPEND"], [(target, fpath)]. simpl.
    repeat split; try done.
    + intros f t m Hin. apply list_elem_of_singleton in Hin. by injection Hin.
    + intros x Hx. apply list_elem_of_singleton in Hx. by subst.
Qed.

Lemma additive_after_downloads target l s :
  additive s (after_downloads target l s).
Proof.
  revert s. induction l as [|f l IH]; intros s; simpl; [apply additive_refl|].
  eapply additive_trans; [apply additive_after_download|apply IH].
Qed.

(** After the loop every listed object is present in the target... *)
Lemma after_downloads_present target l s fpath :
  fpath ∈ l → (target, fpath) ∈ local_files (after_downloads target l s).
Proof.
  revert s. induction l as [|f l IH]; intros s Hin; [by apply elem_of_nil in Hin|].
  apply elem_of_cons in Hin as [->|Hin]; [|by apply IH].
  simpl. apply (proj1 (additive_after_downloads target l _)).
  unfold after_download. simpl.
  destruct (bool_decide ((target, f) ∈ local_files s)) eqn:Hb; simpl.
  - by apply bool_decide_eq_true in Hb.
  - set_solver.
Qed.

(** ...and a loop over objects that are all present transfers nothing. *)
Lemma after_downloads_noop target l s :
  (∀ fpath, fpath ∈ l → (target, fpath) ∈ local_files s) →
  transfers (after_downloads target l s) = transfers s
  ∧ local_files (after_downloads target l s) = local_files s.
Proof.
  revert s. induction l as [|f l IH]; intros s Hall; [done|].
  simpl.
  assert (Hs : after_download f target s = logged [Download f target "APPEND"] s).
  { unfold after_download. simpl.
    rewrite bool_decide_eq_true_2; [done|]. apply Hall. by apply elem_of_cons; left. }
  rewrite Hs.
  destruct (IH (logged [Download f target "APPEND"] s)) as [-> ->]; [|done].
  intros fpath Hin. simpl. apply Hall. by apply elem_of_cons; right.
Qed.
End Additive.

Section LoadAdditive.
Variable remote : RemoteStore.
Variable inner : InnerDataSetType.

Lemma resolution_calls_quiet d c : c ∈ resolution_calls d → is_download c = false.
Proof.
  unfold resolution_calls. destruct (known_load_version d).
  - intros H. by apply elem_of_nil in H.
  - intros H. apply list_elem_of_singleton in H. by subst.
Qed.

Lemma path_calls_quiet d c : c ∈ path_calls d → is_download c = false.
Proof.
  unfold path_calls. destruct (_local_run d); [apply resolution_calls_quiet|].
  intros H. by apply elem_of_nil in H.
Qed.

Lemma additive_resolve s r s1 :
  resolve_load_version remote s = (r, s1) → additive s s1.
Proof.
  intros Hr. destruct (resolve_frame _ _ _ _ Hr) as (_ & Hl & Ht).
  apply (additive_quiet s s1 (resolution_calls (self s))); try done.
  - by eapply resolve_calls.
  - apply resolution_calls_quiet.
Qed.

Lemma additive_path s r s1 : path remote s = (r, s1) → additive s s1.
Proof.
  intros Hp. destruct (path_frame remote _ _ _ Hp) as (Hc & Hl & Ht).
  apply (additive_quiet s s1 (path_calls (self s))); try done.
  apply path_calls_quiet.
Qed.

Ltac quiet :=
  apply additive_logged; intros c Hc;
  repeat (apply elem_of_cons in Hc as [->|Hc]; [done|]);
  by apply elem_of_nil in Hc.

Lemma additive_load s r s' : _load remote inner s = (r, s') → additive s s'.
Proof.
  intros H. apply load_outcome_complete in H.
  destruct H as [P s1 Hd Hp|e s1 Hd Hp|s1 Hd Hr|v s1 Hd Hr Ha
                 |v s1 a Hd Hr Ha Hfile Hfolder|v s1 a e Hd Hr Ha He
                 |v s1 a fp p Hd Hf Hr Ha Hp P s2].
  - eapply additive_trans; [by eapply additive_path|]. quiet.
  - by eapply additive_path.
  - by eapply additive_resolve.
  - eapply additive_trans; [by eapply additive_resolve|]. quiet.
  - eapply additive_trans; [by eapply additive_resolve|]. quiet.
  - eapply additive_trans; [by eapply additive_resolve|].
    destruct (String.eqb (Asset.type a) "uri_file"); simpl; quiet.
  - eapply additive_trans; [by eapply additive_resolve|].
    eapply additive_trans; [|quiet].
    eapply additive_trans; [|apply additive_after_downloads]. quiet.
Qed.

(** The mode flags and the identity of an instance after [path]. *)
Lemma path_keeps_download s r s1 :
  path remote s = (r, s1) → _download (self s1) = _download (self s).
Proof.
  intros Hp. pose proof (path_state remote _ _ _ Hp) as Hs.
  destruct (_local_run (self s)); [|by subst].
  destruct Hs as [r' Hr]. destruct (resolve_frame _ _ _ _ Hr) as (-> & _). done.
Qed.

(** A second load after a successful one transfers nothing. *)
Lemma second_load_transfers_nothing s data s' r2 s2 :
  _load remote inner s = (Ok data, s') →
  _load remote inner s' = (r2, s2) →
  transfers s2 = transfers s'.
Proof.
  intros H1 H2. apply load_outcome_complete in H1.
  inversion H1 as [P s1 Hd Hp Hres Hs'|e s1 Hd Hp| | | |
                   |v s1 a fp p Hd Hf Hr Ha Hp P s3 Hres Hs']; subst.
  - assert (Hd' : _download (self (logged [InnerLoad (inner_config (self s) P)] s1)) = false).
    { simpl. by rewrite (path_keeps_download _ _ _ Hp). }
    destruct (plain_load_files remote inner _ Hd') as [_ Ht].
    rewrite H2 in Ht. exact Ht.
  - destruct (resolved_settled remote _ _ _ _ Hf Hr) as (Hf1 & Hk1 & HP1 & Hc1 & Hn1 & Hd1).
    set (s' := logged [InnerLoad (inner_config (self s) P)] s3) in *.
    assert (Hself : self s' = self s1).
    { unfold s', s3. simpl. by rewrite after_downloads_self. }
    assert (Hr' : resolve_load_version remote s' = (Ok v, s')).
    { apply known_resolves. by rewrite Hself. }
    rewrite (load_downloads remote inner s' v s' a fp p) in H2.
    + injection H2 as _ <-. simpl.
      refine (proj1 (after_downloads_noop _ _ _ _)). intros fpath Hin. simpl.
      change (self s3) with (self s'). rewrite Hself, HP1.
      by apply after_downloads_present.
    + by rewrite Hself, Hd1.
    + by rewrite Hself.
    + done.
    + by rewrite Hself, Hn1.
    + done.
Qed.
End LoadAdditive.


(** ** Loading without download (C3) *)

(** C3, as amended: with download disabled, [load()] fetches no asset, opens
    no file system, lists and downloads nothing; it computes the path, builds
    the inner dataset on it and returns the result of the inner [load()]
    unchanged.  The remote calls it makes are those of the path computation:
    none in remote-run mode or when the load version is known (given
    explicitly or cached), and exactly one lookup of the latest version in
    local-run mode when it is not. *)
Theorem load_without_download (remote : RemoteStore) (inner : InnerDataSetType)
    (s : State) :
  _download (self s) = false →
  ∃ r s1,
    path remote s = (r, s1)
    ∧ _load remote inner s
      = match r with
        | Ok P =>
            (inner_result inner (inner_config (self s) P) (local_files s),
             logged [InnerLoad (inner_config (self s) P)] s1)
        | Raise e => (Raise e, s1)
        end
    ∧ remote_calls (_load remote inner s).2 = remote_calls s ++ path_calls (self s)
    ∧ local_files (_load remote inner s).2 = local_files s
    ∧ transfers (_load remote inner s).2 = transfers s.
Proof.
  intros Hd. destruct (path remote s) as [r s1] eqn:Hp. exists r, s1.
  split; [done|]. destruct (path_frame remote _ _ _ Hp) as (Hc & Hl & Ht).
  rewrite (load_without_download_eq remote inner _ Hd).
  destruct r as [P|e].
  - rewrite (construct_and_load remote inner _ _ _ Hp). rewrite Hl.
    split; [done|]. simpl. split; [|done].
    unfold remote_calls. simpl.
    rewrite Hc, !List.filter_app, path_calls_remote. simpl. by rewrite app_nil_r.
  - rewrite (construct_and_load_raise remote inner _ _ _ Hp).
    split; [done|]. simpl. split; [|done].
    unfold remote_calls. by rewrite Hc, List.filter_app, path_calls_remote.
Qed.

Lemma load_without_download_witness :
  let cloud := Examples.start (Examples.dataset Examples.unpinned false false "orders.csv") in
  let local := Examples.start (Examples.dataset (Examples.pinned "3") false true "orders.csv") in
  (_load Examples.store Examples.inner cloud).1 = Ok (VStr "rows")
  ∧ remote_calls (_load Examples.store Examples.inner cloud).2 = []
  ∧ remote_calls (_load Examples.store Examples.inner local).2 = [].
Proof.
  intros cloud local.
  destruct (load_without_download Examples.store Examples.inner cloud eq_refl)
    as (r & s1 & Hp & Hl & Hc & _).
  destruct (load_without_download Examples.store Examples.inner local eq_refl)
    as (r' & s1' & _ & _ & Hc' & _).
  split; [reflexivity|]. split; [exact Hc|exact Hc'].
Defined.

(** C3 as stated fails in local-run mode with no load version configured:
    computing the path resolves the version, which asks the remote store for
    the latest one. *)
Lemma load_without_download_looks_up_latest :
  let s := Examples.start (Examples.dataset Examples.unpinned false true "orders.csv") in
  _download (self s) = false
  ∧ explicit_load_version (self s) = None
  ∧ (_load Examples.store Examples.inner s).1 = Ok (VStr "rows")
  ∧ remote_calls (_load Examples.store Examples.inner s).2 = [DataGetLatest "sales"].
Proof. repeat split; vm_compute; reflexivity. Qed.

(** ** Not-found errors (C6) *)

(** C6: with download enabled, when version resolution has returned a
    version and the fetch of the asset in that version fails, [load()] raises
    the version-not-found error (naming that version), not the
    asset-not-found one; and whenever [load()] raises the asset-not-found
    error, it comes from the lookup of the latest version, which found no
    asset of that name: no load version was known, the remote store has no
    latest version of the asset, and that lookup is all that happened. *)
Theorem version_not_found_distinct (remote : RemoteStore) (inner : InnerDataSetType)
    (s : State) :
  (_download (self s) = true →
   ∀ v s1,
     resolve_load_version remote s = (Ok v, s1) →
     data_get remote (_azureml_dataset (self s)) v = None →
     _load remote inner s
     = (Raise (VersionNotFoundError v),
        logged [DataGet (_azureml_dataset (self s)) v] s1))
  ∧
  (∀ s2,
     _load remote inner s = (Raise DataSetNotFoundError, s2) →
     known_load_version (self s) = None
     ∧ data_get_latest remote (_azureml_dataset (self s)) = None
     ∧ s2 = after_lookup s).
Proof.
  split.
  - intros Hd v s1 Hr Ha. by apply load_version_absent.
  - intros s2 H. apply load_outcome_complete in H.
    assert (Hres : resolve_load_version remote s = (Raise DataSetNotFoundError, s2)).
    { inversion H as [P s1 Hd Hp Hres|e s1 Hd Hp|s1 Hd Hr|v s1 Hd Hr Ha
                      |v s1 a Hd Hr Ha Hfile Hfolder|v s1 a e Hd Hr Ha He
                      |v s1 a fp p Hd Hf Hr Ha Hp P s3 Hres]; subst.
      - apply inner_result_wrapped in Hres as [m [=]].
      - by apply path_not_found.
      - done.
      - destruct (filepath_error_kind _ _ He) as [[=]|[=]].
      - apply inner_result_wrapped in Hres as [m [=]]. }
    apply resolve_load_version_outcome in Hres.
    by inversion Hres.
Qed.

Lemma version_not_found_distinct_witness :
  let stale := Examples.start (Examples.dataset Examples.unpinned true true "orders.csv") in
  (∃ s2, _load Examples.stale_store Examples.inner stale
         = (Raise (VersionNotFoundError "3"), s2)
         ∧ calls s2 = [DataGetLatest "sales"; DataGet "sales" "3"])
  ∧ data_get_latest Examples.empty_store "sales" = None.
Proof.
  intros stale. split.
  - eexists. split.
    + apply (proj1 (version_not_found_distinct Examples.stale_store Examples.inner stale)
               eq_refl "3" (after_fetch stale "3") eq_refl eq_refl).
    + reflexivity.
  - apply (proj2 (version_not_found_distinct Examples.empty_store Examples.inner stale)
             (after_lookup stale) eq_refl).
Defined.

(** ** Normal paths *)


Section PathlibFacts.

Lemma split_sep_nonempty s : split_sep s ≠ [].
Proof. destruct s as [|c r]; simpl; [done|]. destruct (Ascii.eqb c "/"); [done|]. by destruct (split_sep r). Qed.

Lemma split_sep_no_sep s : Forall (λ x, has_sep x = false) (split_sep s).
Proof.
  induction s as [|c r IH]; simpl; [by repeat constructor|].
  destruct (Ascii.eqb c "/") eqn:Hc; [by constructor|].
  destruct (split_sep r) as [|h t]; [by repeat constructor; simpl; rewrite Hc|].
  inversion IH; subst. constructor; [simpl; by rewrite Hc|done].
Qed.

Lemma parse_segments_plain rel :
  Forall (λ x, plain_segment x = true) (List.filter keep_segment (split_sep rel)).
Proof.
  pose proof (split_sep_no_sep rel) as H.
  induction H as [|x l Hx Hl IH]; simpl; [constructor|].
  destruct (keep_segment x) eqn:Hk; [|done].
  constructor; [|done]. unfold plain_segment. by rewrite Hk, Hx.
Qed.

Lemma parse_normal s : normal (parse s).
Proof.
  unfold parse, splitroot. destruct s as [|c r]; simpl.
  - split; [auto|]. apply (parse_segments_plain "").
  - destruct (Ascii.eqb c "/") eqn:Hc.
    + destruct (Nat.eqb _ 2); split; simpl; auto; apply parse_segments_plain.
    + split; [auto|]. apply (parse_segments_plain (String c r)).
Qed.

Lemma joinpath_normal p q : normal p → normal q → normal (joinpath p q).
Proof.
  intros [Hr Hs] [Hr' Hs']. unfold joinpath. destruct (is_absolute q); [done|].
  split; [done|]. simpl. by apply Forall_app.
Qed.

Lemma removelast_Forall {A} (P : A → Prop) l : Forall P l → Forall P (List.removelast l).
Proof.
  induction 1 as [|x l Hx Hl IH]; simpl; [constructor|].
  destruct l; [constructor|]. by constructor.
Qed.

Lemma parent_normal p : normal p → normal (parent p).
Proof. intros [Hr Hs]. split; [done|]. simpl. by apply removelast_Forall. Qed.

(** Splitting what was joined. *)
Lemma split_sep_plain x : has_sep x = false → split_sep x = [x].
Proof.
  induction x as [|c r IH]; simpl; [done|].
  destruct (Ascii.eqb c "/"); [done|]. simpl. intros H. by rewrite IH.
Qed.

Lemma split_sep_cons x r :
  has_sep x = false → split_sep (x +:+ "/" +:+ r) = x :: split_sep r.
Proof.
  induction x as [|c x IH]; simpl; [done|].
  destruct (Ascii.eqb c "/"); [done|]. simpl. intros H. by rewrite IH.
Qed.

Lemma plain_segment_spec x :
  plain_segment x = true → keep_segment x = true ∧ has_sep x = false.
Proof.
  unfold plain_segment. intros [H1 H2]%andb_true_iff.
  split; [done|]. by apply negb_true_iff.
Qed.

Lemma split_join l :
  l ≠ [] → Forall (λ x, plain_segment x = true) l → split_sep (join_sep l) = l.
Proof.
  intros Hne H. induction H as [|x l Hx Hl IH]; [done|].
  destruct (plain_segment_spec _ Hx) as [_ Hs].
  destruct l as [|y t]; simpl; [by apply split_sep_plain|].
  rewrite split_sep_cons by done. f_equal. by apply IH.
Qed.

Lemma filter_keep l :
  Forall (λ x, plain_segment x = true) l → List.filter keep_segment l = l.
Proof.
  induction 1 as [|x l Hx Hl IH]; simpl; [done|].
  destruct (plain_segment_spec _ Hx) as [-> _]. by rewrite IH.
Qed.

Lemma filter_split_join l :
  Forall (λ x, plain_segment x = true) l →
  List.filter keep_segment (split_sep (join_sep l)) = l.
Proof.
  intros H. destruct l as [|x t]; [done|].
  rewrite split_join by done. by apply filter_keep.
Qed.

(** What is joined from plain segments does not start with a separator
    and, if there is a segment, is not empty. *)
Lemma join_sep_head l :
  Forall (λ x, plain_segment x = true) l →
  match join_sep l with
  | EmptyString => l = []
  | String c _ => Ascii.eqb c "/" = false
  end.
Proof.
  intros H. destruct H as [|x l Hx Hl]; [done|].
  destruct (plain_segment_spec _ Hx) as [Hk Hs].
  destruct x as [|c x]; [done|]. simpl in Hs. apply orb_false_iff in Hs as [Hc _].
  destruct l; simpl; by rewrite ?Hc.
Qed.

End PathlibFacts.

Lemma parse_relative_string s :
  match s with String c _ => Ascii.eqb c "/" = false | EmptyString => True end →
  parse s = mkPath "" (List.filter keep_segment (split_sep s)).
Proof.
  unfold parse, splitroot. destruct s as [|c r]; [done|]. by intros ->.
Qed.

Lemma lstrip_sep_relative s :
  match s with String c _ => Ascii.eqb c "/" = false | EmptyString => True end →
  lstrip_sep s = s.
Proof. destruct s as [|c r]; [done|]. simpl. by intros ->. Qed.

Lemma parse_rooted s :
  match s with String c _ => Ascii.eqb c "/" = false | EmptyString => True end →
  parse (String "/" s) = mkPath "/" (List.filter keep_segment (split_sep s)).
Proof.
  intros H. unfold parse, splitroot.
  change (Ascii.eqb "/" "/") with true. cbv iota.
  change (lstrip_sep (String "/" s)) with (lstrip_sep s).
  rewrite (lstrip_sep_relative _ H).
  change (String.length (String "/" s)) with (S (String.length s)).
  replace (S (String.length s) - String.length s) with 1 by lia. done.
Qed.

Lemma parse_double_rooted s :
  match s with String c _ => Ascii.eqb c "/" = false | EmptyString => True end →
  parse (String "/" (String "/" s)) = mkPath "//" (List.filter keep_segment (split_sep s)).
Proof.
  intros H. unfold parse, splitroot.
  change (Ascii.eqb "/" "/") with true. cbv iota.
  change (lstrip_sep (String "/" (String "/" s))) with (lstrip_sep s).
  rewrite (lstrip_sep_relative _ H).
  change (String.length (String "/" (String "/" s))) with (S (S (String.length s))).
  replace (S (S (String.length s)) - String.length s) with 2 by lia. done.
Qed.

(** What [str] yields parses back to the path. *)
Lemma parse_to_str_normal (p : Path) : normal p → parse (to_str p) = p.
Proof.
  intros [Hr Hs]. destruct p as [r l]. simpl in *.
  pose proof (join_sep_head l Hs) as Hh. pose proof (filter_split_join l Hs) as Hf.
  assert (Hrel : match join_sep l with
                 | String c _ => Ascii.eqb c "/" = false
                 | EmptyString => True
                 end) by (by destruct (join_sep l)).
  unfold to_str. simpl.
  destruct Hr as [->|[->| ->]].
  - destruct (join_sep l) as [|c j] eqn:Hj.
    + simpl. by subst l.
    + change (parse (String c j) = mkPath "" l).
      rewrite parse_relative_string by done. by rewrite Hf.
  - change (parse (String "/" (join_sep l)) = mkPath "/" l).
    rewrite parse_rooted by done. by rewrite Hf.
  - change (parse (String "/" (String "/" (join_sep l))) = mkPath "//" l).
    rewrite parse_double_rooted by done. by rewrite Hf.
Qed.

Lemma to_str_inj p q : normal p → normal q → to_str p = to_str q → p = q.
Proof.
  intros Hp Hq H. rewrite <- (parse_to_str_normal p Hp), <- (parse_to_str_normal q Hq). by rewrite H.
Qed.

(** ** The remote path listed and downloaded (C7) *)




(** ** Skip-existing downloads (C8) *)

(** C8: during [load()] every download is issued in skip-existing mode
    (overwrite [APPEND]); local files are only added; every object
    transferred was absent from its target before the load, so that no file
    already present is fetched again; and a load that follows a successful
    one transfers nothing at all. *)
Theorem download_skips_existing (remote : RemoteStore) (inner : InnerDataSetType)
    (s s' : State) (r : Result Value) :
  _load remote inner s = (r, s') →
  skip_existing_only (calls_since (length (calls s)) s')
  ∧ local_files s ⊆ local_files s'
  ∧ (∀ x, x ∈ drop (length (transfers s)) (transfers s') → x ∉ local_files s)
  ∧ (∀ data r2 s2,
       r = Ok data → _load remote inner s' = (r2, s2) → transfers s2 = transfers s').
Proof.
  intros H. destruct (additive_load remote inner _ _ _ H)
    as (Hl & cs & ts & Hc & Ht & Hs & Hn).
  split; [unfold calls_since; by rewrite Hc, drop_app_length|].
  split; [done|]. split; [by rewrite Ht, drop_app_length|].
  intros data r2 s2 -> H2. by eapply second_load_transfers_nothing.
Qed.

Lemma download_skips_existing_witness :
  let s := Examples.start (Examples.dataset Examples.unpinned true true "orders.csv") in
  let s1 := (_load Examples.store Examples.inner s).2 in
  let s2 := (_load Examples.store Examples.inner s1).2 in
  transfers s1 = [("data/sales/3", "raw/sales/orders.csv/part-0");
                  ("data/sales/3", "raw/sales/orders.csv/part-1")]
  ∧ List.filter is_download (calls_since (length (calls s1)) s2)
    = [Download "raw/sales/orders.csv/part-0" "data/sales/3" "APPEND";
       Download "raw/sales/orders.csv/part-1" "data/sales/3" "APPEND"]
  ∧ transfers s2 = transfers s1.
Proof.
  intros s s1 s2. split; [reflexivity|]. split; [reflexivity|].
  apply (proj2 (proj2 (proj2
           (download_skips_existing Examples.store Examples.inner s s1 (Ok (VStr "rows"))
              eq_refl)))
           (VStr "rows") (_load Examples.store Examples.inner s1).1 s2 eq_refl).
  reflexivity.
Defined.

(** ** An asset of another type (C10) *)

(** C10: with download enabled, when the asset fetched in the resolved
    version is neither of type [uri_file] nor of type [uri_folder], [load()]
    raises the unbound-local-variable error for [path_on_azure]: after the
    fetch of the asset and the opening of the file system nothing is listed
    and nothing downloaded, and the local files are as before. *)
Theorem unsupported_type_unbound_local (remote : RemoteStore)
    (inner : InnerDataSetType) (s s1 : State) (v : string) (a : Asset.t) :
  _download (self s) = true →
  resolve_load_version remote s = (Ok v, s1) →
  data_get remote (_azureml_dataset (self s)) v = Some a →
  Asset.type a ≠ "uri_file" →
  Asset.type a ≠ "uri_folder" →
  ∃ s2,
    _load remote inner s = (Raise (UnboundLocalError "path_on_azure"), s2)
    ∧ calls s2 = calls s1 ++ [DataGet (_azureml_dataset (self s)) v;
                              FileSystem (Asset.path a)]
    ∧ calls s1 = calls s ++ resolution_calls (self s)
    ∧ transfers s2 = transfers s
    ∧ local_files s2 = local_files s.
Proof.
  intros Hd Hr Ha Hfile Hfolder.
  apply String.eqb_neq in Hfile, Hfolder.
  eexists. split; [by apply (load_type_unsupported remote inner s v s1 a)|].
  destruct (resolve_frame _ _ _ _ Hr) as (_ & Hl & Ht).
  split; [done|]. split; [by eapply resolve_calls|]. done.
Qed.

Lemma unsupported_type_unbound_local_witness :
  let s := Examples.start (Examples.dataset (Examples.pinned "3") true true "orders.csv") in
  ∃ s2,
    _load Examples.table_store Examples.inner s
    = (Raise (UnboundLocalError "path_on_azure"), s2)
    ∧ calls s2 = [DataGet "sales" "3"; FileSystem "azureml://datastores/raw/paths/sales/"].
Proof.
  intros s.
  destruct (unsupported_type_unbound_local Examples.table_store Examples.inner s s "3"
              Examples.table eq_refl eq_refl eq_refl)
    as (s2 & Hl & Hc & _).
  - intros H. discriminate H.
  - intros H. discriminate H.
  - exists s2. split; [exact Hl|exact Hc].
Defined.

(** ** Further properties of the dataset *)


Section InstanceFrame.
Variable remote : RemoteStore.
Variable inner : InnerDataSetType.
Implicit Types (s : State).

Lemma same_instance_self s s' : self s' = self s → same_instance s s'.
Proof.
  intros H. unfold same_instance. rewrite H. repeat split; try done.
  by destruct (self s).
Qed.

Lemma same_instance_trans s1 s2 s3 :
  same_instance s1 s2 → same_instance s2 s3 → same_instance s1 s3.
Proof.
  intros (H1 & K1 & L1) (H2 & K2 & L2). repeat split.
  - rewrite H2, H1. done.
  - intros k Hk. by rewrite K2, K1.
  - intros v Hv. by apply L2, L1.
Qed.

Lemma same_instance_resolve s r s1 :
  resolve_load_version remote s = (r, s1) → same_instance s s1.
Proof.
  intros H. apply resolve_load_version_outcome in H.
  destruct H as [v Hk|a Hk Hl|Hk Hl]; try by apply same_instance_self.
  destruct (known_None _ Hk) as [_ Hc].
  repeat split; simpl.
  - intros k Hne. by rewrite lookup_insert_ne.
  - intros v Hv. congruence.
Qed.

Lemma same_instance_path s r s1 : path remote s = (r, s1) → same_instance s s1.
Proof.
  intros Hp. pose proof (path_state remote _ _ _ Hp) as Hs.
  destruct (_local_run (self s)).
  - destruct Hs as [r' Hr]. by eapply same_instance_resolve.
  - subst. by apply same_instance_self.
Qed.

Lemma same_instance_load s r s' :
  _load remote inner s = (r, s') → same_instance s s'.
Proof.
  intros H. apply load_outcome_complete in H.
  destruct H as [P s1 Hd Hp|e s1 Hd Hp|s1 Hd Hr|v s1 Hd Hr Ha
                 |v s1 a Hd Hr Ha Hfile Hfolder|v s1 a e Hd Hr Ha He
                 |v s1 a fp p Hd Hf Hr Ha Hp P s2].
  - eapply same_instance_trans; [by eapply same_instance_path|].
    by apply same_instance_self.
  - by eapply same_instance_path.
  - by eapply same_instance_resolve.
  - eapply same_instance_trans; [by eapply same_instance_resolve|].
    by apply same_instance_self.
  - eapply same_instance_trans; [by eapply same_instance_resolve|].
    by apply same_instance_self.
  - eapply same_instance_trans; [by eapply same_instance_resolve|].
    by apply same_instance_self.
  - eapply same_instance_trans; [by eapply same_instance_resolve|].
    apply same_instance_self. simpl. unfold s2. by rewrite after_downloads_self.
Qed.
End InstanceFrame.


Section Save.
Variable remote : RemoteStore.
Variable inner : InnerDataSetType.
Implicit Types (s : State).

Lemma construct_and_save s P s1 data :
  path remote s = (Ok P, s1) →
  _save remote inner data s
  = (inner_save_result inner (inner_config (self s) P) data,
     logged [InnerSave (inner_config (self s) P) data] s1).
Proof.
  intros Hp. unfold _save, _construct_dataset, inner_dataset_save,
    inner_save_result, inner_config.
  run. rewrite Hp. unfold logged. simpl. by destruct (inner_save _ _ _).
Qed.

Lemma construct_and_save_raise s e s1 data :
  path remote s = (Raise e, s1) → _save remote inner data s = (Raise e, s1).
Proof. intros Hp. unfold _save, _construct_dataset. run. by rewrite Hp. Qed.

(** A path is returned only when the file path key holds a string. *)
Lemma path_ok_filepath s P s1 :
  path remote s = (Ok P, s1) → ∃ fp, has_filepath (self s) fp.
Proof.
  intros Hp. apply filepath_error_None.
  destruct (filepath_error (self s)) as [e|] eqn:He; [|done].
  revert Hp. unfold path. step (eq_refl : gets self s = (Ok (self s), s)).
  destruct (_local_run (self s)).
  - destruct (resolve_load_version remote s) as [[v|e'] s'] eqn:Hr.
    + step Hr. rewrite filepath_as_path.
      rewrite (filepath_error_resolved _ _ _ _ Hr), He. discriminate.
    + step Hr. discriminate.
  - rewrite filepath_as_path, He. discriminate.
Qed.

(** Once [path] has returned, it returns the same again on every state
    with that instance, whatever the remote store then holds. *)
Lemma path_again (remote' : RemoteStore) s P s1 :
  path remote s = (Ok P, s1) →
  ∀ s2, self s2 = self s1 → path remote' s2 = (Ok P, s2).
Proof.
  intros Hp. destruct (path_ok_filepath _ _ _ Hp) as [fp Hf].
  destruct (path_inv remote _ _ _ _ Hf Hp) as (v & HP & Hf1 & Heq & _ & _ & Hk).
  intros s2 Hs. rewrite (path_settled remote' s2 v fp).
  - by rewrite Hs, Heq, HP.
  - by rewrite Hs.
  - by rewrite Hs.
Qed.

End Save.

Section LoadCalls.
Variable remote : RemoteStore.
Variable inner : InnerDataSetType.
Implicit Types (s : State).

(** The calls of a load: those of version resolution first, if it is
    needed, then calls that are no lookups of the latest version. *)
Lemma load_calls s r s' :
  _load remote inner s = (r, s') →
  ∃ rest,
    calls s' = calls s
               ++ (if _download (self s) || _local_run (self s)
                   then resolution_calls (self s) else [])
               ++ rest
    ∧ List.filter is_latest_lookup rest = [].
Proof.
  intros H. apply load_outcome_complete in H.
  destruct H as [P s1 Hd Hp|e s1 Hd Hp|s1 Hd Hr|v s1 Hd Hr Ha
                 |v s1 a Hd Hr Ha Hfile Hfolder|v s1 a e Hd Hr Ha He
                 |v s1 a fp p Hd Hf Hr Ha Hp P s2]; rewrite Hd; simpl orb.
  - destruct (path_frame remote _ _ _ Hp) as (Hc & _). unfold path_calls in Hc.
    eexists. split; [simpl; rewrite Hc, <- app_assoc; done|done].
  - destruct (path_frame remote _ _ _ Hp) as (Hc & _). unfold path_calls in Hc.
    exists []. by rewrite app_nil_r.
  - exists []. rewrite app_nil_r. split; [by eapply resolve_calls|done].
  - eexists. simpl. rewrite (resolve_calls _ _ _ _ Hr), <- app_assoc. done.
  - eexists. simpl. rewrite (resolve_calls _ _ _ _ Hr), <- app_assoc. done.
  - eexists. simpl. rewrite (resolve_calls _ _ _ _ Hr), <- app_assoc.
    split; [done|]. by destruct (String.eqb (Asset.type a) "uri_file").
  - eexists. simpl. unfold s2.
    rewrite after_downloads_calls. simpl.
    rewrite (resolve_calls _ _ _ _ Hr), <- !app_assoc. split; [done|].
    simpl. rewrite List.filter_app. simpl. rewrite app_nil_r.
    induction (ls remote (Asset.path a) p) as [|x l IH]; [done|]. simpl. exact IH.
Qed.
End LoadCalls.

(** X2: [_construct_dataset] works on a copy: the configuration the inner
    dataset is built from holds the string of the computed path under the
    file path key, agrees with the stored configuration on every other key
    and has exactly its keys, and the stored configuration is left as it
    was. *)
Theorem construct_dataset_on_copy (remote : RemoteStore) (s s1 : State)
    (cfg : gmap string Value) :
  _construct_dataset remote s = (Ok cfg, s1) →
  ∃ P,
    path remote s = (Ok P, s1)
    ∧ cfg !! _filepath_arg (self s) = Some (VStr (to_str P))
    ∧ (∀ k, k ≠ _filepath_arg (self s) → cfg !! k = _dataset_config (self s) !! k)
    ∧ dom cfg = dom (_dataset_config (self s))
    ∧ _dataset_config (self s1) = _dataset_config (self s).
Proof.
  unfold _construct_dataset. step (eq_refl : gets self s = (Ok (self s), s)).
  destruct (path remote s) as [[P|e] s'] eqn:Hp.
  - step Hp. intros [= <- <-]. exists P. split; [done|].
    split; [apply lookup_insert_eq|].
    split; [intros k Hk; by apply lookup_insert_ne|].
    destruct (path_ok_filepath remote _ _ _ Hp) as [fp Hf].
    split.
    + rewrite dom_insert_L. apply elem_of_dom_2 in Hf.
      apply set_eq. intros k. rewrite elem_of_union, elem_of_singleton.
      split; [intros [->|Hk]; done|by right].
    + destruct (same_instance_path remote _ _ _ Hp) as (-> & _). done.
  - step Hp. discriminate.
Qed.

Lemma construct_dataset_on_copy_witness :
  let s := Examples.start (Examples.dataset (Examples.pinned "3") false true "orders.csv") in
  ∃ cfg, _construct_dataset Examples.store s = (Ok cfg, s)
         ∧ cfg !! "filepath" = Some (VStr "data/sales/3/orders.csv")
         ∧ _dataset_config (self s) !! "filepath" = Some (VStr "orders.csv").
Proof.
  intros s.
  destruct (construct_dataset_on_copy Examples.store s s
              (<["filepath" := VStr "data/sales/3/orders.csv"]> (_dataset_config (self s)))
              eq_refl) as (P & Hp & Hc & _).
  exists (<["filepath" := VStr "data/sales/3/orders.csv"]> (_dataset_config (self s))).
  split; [reflexivity|]. split; [|reflexivity].
  injection Hp as <-. exact Hc.
Defined.

(** X3: a load or a save changes nothing of the instance but its version
    cache, and in the cache nothing but the load slot: every other entry,
    the save slot included, is kept, and a load version already cached is
    never replaced. *)
Theorem load_and_save_keep_instance (remote : RemoteStore) (inner : InnerDataSetType)
    (s s' : State) :
  (∃ r, _load remote inner s = (r, s')) ∨ (∃ data r, _save remote inner data s = (r, s')) →
  self s' = with_cache (self s) (_version_cache (self s'))
  ∧ (∀ k, k ≠ "load" → _version_cache (self s') !! k = _version_cache (self s) !! k)
  ∧ (∀ v, _version_cache (self s) !! "load" = Some v →
          _version_cache (self s') !! "load" = Some v).
Proof.
  intros [[r H]|(data & r & H)].
  - by eapply same_instance_load.
  - destruct (path remote s) as [[P|e] s1] eqn:Hp.
    + rewrite (construct_and_save remote inner _ _ _ data Hp) in H.
      injection H as _ <-.
      eapply same_instance_trans; [by eapply same_instance_path|].
      by apply same_instance_self.
    + rewrite (construct_and_save_raise remote inner _ _ _ data Hp) in H.
      injection H as _ <-. by eapply same_instance_path.
Qed.

Lemma load_and_save_keep_instance_witness :
  let d := mkDataSet {[ "filepath" := VStr "orders.csv" ]} "data" "filepath" "sales"
             Examples.unpinned {[ "save" := "2024-01-01T00.00.00.000Z" ]} true true None in
  let s' := (_load Examples.store Examples.inner (Examples.start d)).2 in
  _version_cache (self s') !! "save" = Some "2024-01-01T00.00.00.000Z"
  ∧ _version_cache (self s') !! "load" = Some "3"
  ∧ _dataset_config (self s') = _dataset_config d.
Proof.
  intros d s'.
  destruct (load_and_save_keep_instance Examples.store Examples.inner (Examples.start d) s')
    as (Hs & Hk & _).
  { left. eexists. apply surjective_pairing. }
  split; [|split].
  - rewrite (Hk "save"); [reflexivity|discriminate].
  - reflexivity.
  - rewrite Hs. reflexivity.
Defined.

(** X4: however many objects are listed and however often the path is
    computed, a load looks up the latest version at most once: exactly once
    when no load version is known and download is enabled or the run is
    local, never otherwise. *)
Theorem load_looks_up_latest_at_most_once (remote : RemoteStore)
    (inner : InnerDataSetType) (s s' : State) (r : Result Value) :
  _load remote inner s = (r, s') →
  List.filter is_latest_lookup (calls_since (length (calls s)) s')
  = if _download (self s) || _local_run (self s)
    then resolution_calls (self s) else [].
Proof.
  intros H. destruct (load_calls remote inner _ _ _ H) as (rest & Hc & Hr).
  unfold calls_since. rewrite Hc, drop_app_length, List.filter_app, Hr, app_nil_r.
  destruct (_download (self s) || _local_run (self s)); [|done].
  unfold resolution_calls. by destruct (known_load_version (self s)).
Qed.

Lemma load_looks_up_latest_at_most_once_witness :
  let s := Examples.start (Examples.dataset Examples.unpinned true true "orders.csv") in
  let s' := (_load Examples.store Examples.inner s).2 in
  length (calls s') = 7
  ∧ List.filter is_latest_lookup (calls s') = [DataGetLatest "sales"].
Proof.
  intros s s'. split; [reflexivity|].
  exact (load_looks_up_latest_at_most_once Examples.store Examples.inner s s'
           (_load Examples.store Examples.inner s).1 (surjective_pairing _)).
Defined.

Section LoadErrors.
Variable remote : RemoteStore.
Variable inner : InnerDataSetType.
Implicit Types (s : State).


End LoadErrors.



(** X7: once the path has been computed, computing it again on any state
    with the resulting instance returns the same path, the same download
    target and the same inner dataset without any call or change of state,
    whatever the remote store then holds. *)
Theorem path_settles (remote remote' : RemoteStore) (s s1 : State) (P : Path) :
  path remote s = (Ok P, s1) →
  ∀ s2, self s2 = self s1 →
    path remote' s2 = (Ok P, s2)
    ∧ download_path remote' s2 = (Ok (download_target P), s2)
    ∧ _construct_dataset remote' s2 = (Ok (inner_config (self s) P), s2).
Proof.
  intros Hp s2 Hs.
  pose proof (path_again remote remote' _ _ _ Hp s2 Hs) as Hp2. split; [done|].
  destruct (path_ok_filepath remote' _ _ _ Hp2) as [fp Hf]. split.
  - by apply (download_path_ok remote' s2 fp P s2).
  - unfold _construct_dataset. step (eq_refl : gets self s2 = (Ok (self s2), s2)).
    step Hp2. unfold inner_config. rewrite Hs.
    destruct (same_instance_path remote _ _ _ Hp) as (-> & _). done.
Qed.

Lemma path_settles_witness :
  let s := Examples.start (Examples.dataset Examples.unpinned false true "orders.csv") in
  let s1 := after_fetch s "3" in
  path Examples.store s = (Ok (parse "data/sales/3/orders.csv"), s1)
  ∧ path Examples.empty_store s1 = (Ok (parse "data/sales/3/orders.csv"), s1)
  ∧ download_path Examples.empty_store s1 = (Ok "data/sales/3", s1).
Proof.
  intros s s1.
  destruct (path_settles Examples.store Examples.empty_store s s1
              (parse "data/sales/3/orders.csv") eq_refl s1 eq_refl) as (Hp & Hd & _).
  split; [reflexivity|]. split; [exact Hp|exact Hd].
Defined.

(** X8: a save that follows a successful load makes no remote call,
    whatever the remote store then holds, and builds the inner dataset from
    the same configuration the load used. *)
Theorem save_after_load (remote remote' : RemoteStore) (inner : InnerDataSetType)
    (s s' : State) (loaded data : Value) :
  _load remote inner s = (Ok loaded, s') →
  ∃ cfg,
    last (calls s') = Some (InnerLoad cfg)
    ∧ _save remote' inner data s'
      = (inner_save_result inner cfg data, logged [InnerSave cfg data] s').
Proof.
  intros H. apply load_outcome_complete in H.
  inversion H as [P s1 Hd Hp Hres Hs'|e1 s1 Hd Hp| | | |
                  |v s1 a fp p Hd Hf Hr Ha Hp P s2 Hres Hs']; subst.
  - exists (inner_config (self s) P). split; [simpl; apply last_snoc|].
    rewrite (construct_and_save remote' inner _ P _ data
               (path_again remote remote' _ _ _ Hp
                  (logged [InnerLoad (inner_config (self s) P)] s1) eq_refl)).
    simpl. destruct (same_instance_path remote _ _ _ Hp) as (-> & _). done.
  - exists (inner_config (self s) P). split; [simpl; apply last_snoc|].
    destruct (resolved_settled remote _ _ _ _ Hf Hr) as (Hf1 & Hk1 & HP1 & Hc1 & _).
    set (s' := logged [InnerLoad (inner_config (self s) P)] s2).
    assert (Hself : self s' = self s1).
    { unfold s', s2. simpl. by rewrite after_downloads_self. }
    rewrite (construct_and_save remote' inner s' P s' data).
    + by rewrite Hself, Hc1.
    + unfold P. rewrite <- HP1, <- Hself. apply path_settled; rewrite Hself; [done|].
      by intros _.
Qed.

Lemma save_after_load_witness :
  let s := Examples.start (Examples.dataset Examples.unpinned true true "orders.csv") in
  let s' := (_load Examples.store Examples.inner s).2 in
  remote_calls (_save Examples.empty_store Examples.inner (VStr "rows") s').2
  = remote_calls s'
  ∧ (_save Examples.empty_store Examples.inner (VStr "rows") s').1 = Ok tt.
Proof.
  intros s s'.
  destruct (save_after_load Examples.store Examples.empty_store Examples.inner s s'
              (VStr "rows") (VStr "rows")) as (cfg & Hl & Hs).
  - reflexivity.
  - rewrite Hs. split; [|reflexivity].
    unfold remote_calls. simpl. rewrite List.filter_app. simpl. apply app_nil_r.
Defined.

(** ** Normal paths, continued *)

Lemma parse_plain v : plain_segment v = true → parse v = mkPath "" [v].
Proof.
  intros H. destruct (plain_segment_spec _ H) as [Hk Hs].
  rewrite parse_relative_string.
  - rewrite split_sep_plain by done. simpl. by rewrite Hk.
  - destruct v as [|c v]; [done|]. simpl in Hs. by apply orb_false_iff in Hs as [-> _].
Qed.

Lemma resolved_local_path_normal d v fp : normal (resolved_local_path d v fp).
Proof.
  unfold resolved_local_path.
  destruct (_local_run d); repeat apply joinpath_normal; apply parse_normal.
Qed.

Lemma download_target_parse p :
  normal p →
  parse (download_target p) = if negb (String.eqb (suffix p) "") then parent p else p.
Proof.
  intros Hn. unfold download_target.
  destruct (negb (String.eqb (suffix p) "")); apply parse_to_str_normal; [|done].
  by apply parent_normal.
Qed.

(** The layout of the local path around a plain version. *)
Lemma local_path_around_version d v fp :
  _local_run d = true → plain_segment v = true → is_absolute (parse fp) = false →
  let base := joinpath (parse (folder d)) (parse (_azureml_dataset d)) in
  resolved_local_path d v fp
  = mkPath (root base) (segments base ++ [v] ++ segments (parse fp)).
Proof.
  intros Hm Hv Hfp base. unfold resolved_local_path. rewrite Hm.
  fold base. rewrite (parse_plain v Hv).
  rewrite (joinpath_relative base) by done. simpl.
  rewrite joinpath_relative by done. simpl. by rewrite <- app_assoc.
Qed.

Lemma removelast_app_nonempty {A} (l l' : list A) :
  l' ≠ [] → List.removelast (l ++ l') = l ++ List.removelast l'.
Proof. intros H. by apply List.removelast_app. Qed.

(** X9: the string of a computed path parses back to that path, and the
    download target parses back to the parent of the path, or to the path
    itself when its final segment has no suffix: the inner dataset and the
    download are handed strings that denote the directories computed. *)
Theorem path_string_round_trip (remote : RemoteStore) (s s1 : State) (P : Path) :
  path remote s = (Ok P, s1) →
  parse (to_str P) = P
  ∧ parse (download_target P)
    = (if negb (String.eqb (suffix P) "") then parent P else P).
Proof.
  intros Hp. destruct (path_ok_filepath remote _ _ _ Hp) as [fp Hf].
  destruct (path_inv remote _ _ _ _ Hf Hp) as (v & -> & _).
  pose proof (resolved_local_path_normal (self s) v fp) as Hn.
  split; [by apply parse_to_str_normal|by apply download_target_parse].
Qed.

Lemma path_string_round_trip_witness :
  let s := Examples.start (Examples.dataset (Examples.pinned "3") false true "./raw//orders.csv") in
  ∃ P, path Examples.store s = (Ok P, s)
       ∧ to_str P = "data/sales/3/raw/orders.csv"
       ∧ parse "data/sales/3/raw/orders.csv" = P.
Proof.
  intros s. eexists. split; [reflexivity|]. split; [reflexivity|].
  exact (proj1 (path_string_round_trip Examples.store s s _ eq_refl)).
Defined.

(** X10: in local-run mode two instances of the same asset under the same
    folder, with the same relative inner file path, that resolve to different
    plain versions get different paths; their download targets differ as
    well when the inner file path has a segment. *)
Theorem distinct_versions_never_collide (remote remote' : RemoteStore)
    (s s1 t t1 : State) (v v' fp : string) :
  _local_run (self s) = true → _local_run (self t) = true →
  folder (self s) = folder (self t) →
  _azureml_dataset (self s) = _azureml_dataset (self t) →
  has_filepath (self s) fp → has_filepath (self t) fp →
  is_absolute (parse fp) = false →
  resolve_load_version remote s = (Ok v, s1) →
  resolve_load_version remote' t = (Ok v', t1) →
  plain_segment v = true → plain_segment v' = true → v ≠ v' →
  ∃ P P',
    path remote s = (Ok P, s1) ∧ path remote' t = (Ok P', t1)
    ∧ to_str P ≠ to_str P'
    ∧ (segments (parse fp) ≠ [] → download_target P ≠ download_target P').
Proof.
  intros Hs Ht Hfo Hna Hfs Hft Hrel Hrs Hrt Hv Hv' Hne.
  exists (resolved_local_path (self s) v fp), (resolved_local_path (self t) v' fp).
  split; [by apply path_local_run|]. split; [by apply path_local_run|].
  pose proof (resolved_local_path_normal (self s) v fp) as Hn.
  pose proof (resolved_local_path_normal (self t) v' fp) as Hn'.
  pose proof (local_path_around_version (self s) v fp Hs Hv Hrel) as HP.
  pose proof (local_path_around_version (self t) v' fp Ht Hv' Hrel) as HP'.
  cbv zeta in HP, HP'. rewrite <- Hfo, <- Hna in HP'.
  set (base := joinpath (parse (folder (self s))) (parse (_azureml_dataset (self s)))) in *.
  split.
  - intros Heq. apply to_str_inj in Heq; [|done..].
    rewrite HP, HP' in Heq. injection Heq as Heq.
    apply app_inv_head in Heq. by injection Heq.
  - intros Hseg Heq.
    assert (Hsuf : suffix (resolved_local_path (self s) v fp)
                   = suffix (resolved_local_path (self t) v' fp)).
    { by rewrite !resolved_local_path_suffix. }
    apply (f_equal parse) in Heq.
    rewrite !download_target_parse in Heq by done. rewrite <- Hsuf in Heq.
    destruct (negb (String.eqb (suffix (resolved_local_path (self s) v fp)) "")).
    + rewrite HP, HP' in Heq. unfold parent in Heq. simpl in Heq.
      injection Heq as Heq.
      rewrite !(removelast_app_nonempty (segments base)) in Heq by done.
      apply app_inv_head in Heq.
      change (v :: segments (parse fp)) with ([v] ++ segments (parse fp)) in Heq.
      change (v' :: segments (parse fp)) with ([v'] ++ segments (parse fp)) in Heq.
      rewrite !removelast_app_nonempty in Heq by done. by injection Heq.
    + rewrite HP, HP' in Heq. injection Heq as Heq.
      apply app_inv_head in Heq. by injection Heq.
Qed.

Lemma distinct_versions_never_collide_witness :
  let s := Examples.start (Examples.dataset (Examples.pinned "3") true true "orders.csv") in
  let t := Examples.start (Examples.dataset (Examples.pinned "4") true true "orders.csv") in
  ∃ P P',
    path Examples.store s = (Ok P, s) ∧ path Examples.store t = (Ok P', t)
    ∧ to_str P ≠ to_str P' ∧ download_target P ≠ download_target P'.
Proof.
  intros s t.
  destruct (distinct_versions_never_collide Examples.store Examples.store s s t t
              "3" "4" "orders.csv" eq_refl eq_refl eq_refl eq_refl eq_refl eq_refl
              eq_refl eq_refl eq_refl eq_refl eq_refl)
    as (P & P' & Hp & Hp' & Hne & Hd).
  - discriminate.
  - exists P, P'. split; [exact Hp|]. split; [exact Hp'|]. split; [exact Hne|].
    apply Hd. injection Hp as <-. discriminate.
Defined.

(** ** Properties of the hook *)


Section StringFacts.

Lemma prefix_spec n h : String.prefix n h = true ↔ ∃ post, h = n +:+ post.
Proof.
  revert h. induction n as [|a n IH]; intros [|b h]; simpl.
  - split; [intros _; by exists ""|done].
  - split; [intros _; by exists (String b h)|done].
  - split; [done|]. by intros [post [=]].
  - destruct (ascii_dec a b) as [->|Hne].
    + rewrite IH. split; intros [post H]; exists post; [by rewrite H|by injection H].
    + split; [done|]. intros [post [= H _]]. done.
Qed.

Lemma contains_unfold n h :
  contains n h
  = if String.prefix n h then true
    else match h with
         | EmptyString => false
         | String _ rest => contains n rest
         end.
Proof. by destruct h. Qed.

Lemma contains_spec n h :
  contains n h = true ↔ ∃ pre post, h = pre +:+ n +:+ post.
Proof.
  induction h as [|c h IH]; rewrite contains_unfold.
  - destruct (String.prefix n "") eqn:Hp.
    + split; [|done]. intros _. apply prefix_spec in Hp as [post Hp]. by exists "", post.
    + split; [done|]. intros (pre & post & H).
      destruct pre; [|done]. simpl in H.
      assert (String.prefix n "" = true) by (apply prefix_spec; eauto). congruence.
  - destruct (String.prefix n (String c h)) eqn:Hp.
    + split; [|done]. intros _. apply prefix_spec in Hp as [post Hp]. by exists "", post.
    + rewrite IH. split.
      * intros (pre & post & ->). by exists (String c pre), post.
      * intros (pre & post & H). destruct pre as [|c' pre].
        -- simpl in H.
           assert (String.prefix n (String c h) = true) by (apply prefix_spec; eauto).
           congruence.
        -- injection H as _ ->. eauto.
Qed.

End StringFacts.

Section HookFacts.
Context {AssetState OtherDataSet AzureMLConfig RawConfig : Type}.
Variable as_local : AzureMLConfig → bool → AssetDataSet AssetState → AssetDataSet AssetState.
Implicit Types (catalog : gmap string (DataSet AssetState OtherDataSet)) (hook : option AzureMLConfig)
  (run_params : gmap string string) (inputs : gset string).

(** The loop, when no item raises and each asset dataset [d] named [n] is
    replaced by [g n d]. *)
Lemma visit_datasets_maps hook run_params inputs (g : string → DataSet AssetState OtherDataSet → DataSet AssetState OtherDataSet)
    (items : list (string * DataSet AssetState OtherDataSet)) catalog :
  NoDup (items.*1) →
  (∀ n ds c, (n, ds) ∈ items →
     visit_dataset as_local hook run_params inputs n ds c
     = inr (if is_asset ds then <[n := g n ds]> c else c)) →
  ∃ c', visit_datasets as_local hook run_params inputs items catalog = (None, c')
        ∧ ∀ k, c' !! k
               = match (list_to_map items : gmap string (DataSet AssetState OtherDataSet)) !! k with
                 | Some ds => if is_asset ds then Some (g k ds) else catalog !! k
                 | None => catalog !! k
                 end.
Proof.
  revert catalog. induction items as [|[n ds] items IH]; intros catalog Hnd Hv.
  - exists catalog. split; [done|]. intros k. simpl. by rewrite lookup_empty.
  - simpl in Hnd. apply NoDup_cons in Hnd as [Hn Hnd].
    simpl. rewrite (Hv n ds catalog) by (by left).
    destruct (IH (if is_asset ds then <[n := g n ds]> catalog else catalog) Hnd)
      as (c' & Hc' & Hl).
    { intros n' ds' c Hin. apply Hv. by right. }
    exists c'. split; [done|]. intros k. rewrite Hl.
    destruct (decide (k = n)) as [->|Hne].
    + rewrite lookup_insert_eq.
      rewrite (not_elem_of_list_to_map_1 _ _ Hn).
      destruct (is_asset ds); [by rewrite lookup_insert_eq|done].
    + rewrite lookup_insert_ne by done.
      destruct (list_to_map items !! k) as [ds'|]; destruct (is_asset ds);
        by rewrite ?lookup_insert_ne.
Qed.

(** The loop, when every asset dataset raises [e]. *)
Lemma visit_datasets_raises hook run_params inputs e
    (items : list (string * DataSet AssetState OtherDataSet)) catalog :
  (∀ n ds c, (n, ds) ∈ items → is_asset ds = true →
     visit_dataset as_local hook run_params inputs n ds c = inl e) →
  visit_datasets as_local hook run_params inputs items catalog
  = (if existsb (λ item, is_asset item.2) items then Some e else None, catalog).
Proof.
  induction items as [|[n ds] items IH]; intros Hv; [done|].
  simpl. destruct ds as [d|o]; simpl.
  - pose proof (Hv n (Asset d) catalog) as H. simpl in H.
    rewrite H; [done|by left|done].
  - apply IH. intros n' ds' c Hin. apply Hv. by right.
Qed.

Lemma before_pipeline_run_maps hook run_params inputs (g : string → DataSet AssetState OtherDataSet → DataSet AssetState OtherDataSet)
    catalog :
  (∀ n ds, is_asset ds = false → g n ds = ds) →
  (∀ n ds c,
     visit_dataset as_local hook run_params inputs n ds c
     = inr (if is_asset ds then <[n := g n ds]> c else c)) →
  before_pipeline_run as_local hook run_params inputs catalog
  = (None, map_imap (λ n ds, Some (g n ds)) catalog).
Proof.
  intros Hg Hv. unfold before_pipeline_run.
  destruct (visit_datasets_maps hook run_params inputs g (map_to_list catalog) catalog)
    as (c' & -> & Hl).
  { apply NoDup_fst_map_to_list. }
  { intros n ds c _. apply Hv. }
  f_equal. apply map_eq. intros k. rewrite Hl, list_to_map_to_list, map_lookup_imap.
  destruct (catalog !! k) as [ds|] eqn:Hk; simpl; [|done].
  destruct (is_asset ds) eqn:Ha; [done|]. by rewrite Hg.
Qed.

End HookFacts.

Section HookTheorems.
Context {AssetState OtherDataSet AzureMLConfig RawConfig : Type}.
Implicit Types (catalog : gmap string (DataSet AssetState OtherDataSet))
  (hook : option AzureMLConfig) (run_params : gmap string string) (inputs : gset string).

Lemma catalog_has_asset catalog :
  existsb (λ item, is_asset item.2) (map_to_list catalog) = true
  ↔ ∃ n d, catalog !! n = Some (Asset d).
Proof.
  rewrite existsb_exists. split.
  - intros ([n ds] & Hin & Ha). apply list_elem_of_In, elem_of_map_to_list in Hin.
    destruct ds as [d|o]; [eauto|done].
  - intros (n & d & H). exists (n, Asset d). split; [|done].
    by apply list_elem_of_In, elem_of_map_to_list.
Qed.

Lemma remote_run_maps
    (as_local : AzureMLConfig → bool → AssetDataSet AssetState → AssetDataSet AssetState)
    hook run_params inputs catalog runner :
  run_params !! "runner" = Some runner →
  contains AzurePipelinesRunner__name__ runner = true →
  before_pipeline_run as_local hook run_params inputs catalog
  = (None, for_remote_run <$> catalog).
Proof.
  intros Hr Hc.
  rewrite (before_pipeline_run_maps as_local hook run_params inputs
             (λ _ ds, for_remote_run ds)).
  - f_equal. apply map_eq. intros k. rewrite map_lookup_imap, lookup_fmap.
    by destruct (catalog !! k).
  - by intros n [d|o].
  - intros n [d|o] c; simpl; [|done]. by rewrite Hr, Hc.
Qed.

Lemma local_run_maps
    (as_local : AzureMLConfig → bool → AssetDataSet AssetState → AssetDataSet AssetState)
    (azure_config : AzureMLConfig) run_params inputs catalog runner :
  run_params !! "runner" = Some runner →
  contains AzurePipelinesRunner__name__ runner = false →
  before_pipeline_run as_local (Some azure_config) run_params inputs catalog
  = (None, map_imap (λ n ds, Some (for_local_run as_local azure_config inputs n ds))
             catalog).
Proof.
  intros Hr Hc.
  apply (before_pipeline_run_maps as_local (Some azure_config) run_params inputs
           (for_local_run as_local azure_config inputs)).
  - by intros n [d|o].
  - intros n [d|o] c; simpl; [|done]. by rewrite Hr, Hc.
Qed.

End HookTheorems.

(** X11: when the runner named in the run parameters contains
    [AzurePipelinesRunner], the hook raises nothing, clears the version of
    every asset dataset and leaves all else as it is: other datasets, the
    rest of the state of an asset dataset and the names in the catalog; the
    asset-store configuration and the pipeline inputs play no role. *)
Theorem hook_in_remote_run {AssetState OtherDataSet AzureMLConfig : Type}
    (as_local : AzureMLConfig → bool → AssetDataSet AssetState → AssetDataSet AssetState)
    (hook : option AzureMLConfig) (run_params : gmap string string)
    (inputs : gset string) (catalog : gmap string (DataSet AssetState OtherDataSet))
    (pre post : string) :
  run_params !! "runner" = Some (pre +:+ "AzurePipelinesRunner" +:+ post) →
  before_pipeline_run as_local hook run_params inputs catalog
  = (None, for_remote_run <$> catalog).
Proof.
  intros Hr. apply (remote_run_maps as_local _ _ _ _ _ Hr).
  apply contains_spec. eauto.
Qed.

(** X12: for any other runner, once the asset-store configuration is set,
    the hook raises nothing and replaces every asset dataset by what
    [as_local] makes of it, download being enabled exactly for the datasets
    that are inputs of the pipeline; other datasets and the names in the
    catalog are as before. *)
Theorem hook_in_local_run {AssetState OtherDataSet AzureMLConfig : Type}
    (as_local : AzureMLConfig → bool → AssetDataSet AssetState → AssetDataSet AssetState)
    (azure_config : AzureMLConfig) (run_params : gmap string string)
    (inputs : gset string) (catalog : gmap string (DataSet AssetState OtherDataSet))
    (runner : string) :
  run_params !! "runner" = Some runner →
  (∀ pre post, runner ≠ pre +:+ "AzurePipelinesRunner" +:+ post) →
  ∃ catalog',
    before_pipeline_run as_local (Some azure_config) run_params inputs catalog
    = (None, catalog')
    ∧ ∀ n, catalog' !! n
           = for_local_run as_local azure_config inputs n <$> catalog !! n.
Proof.
  intros Hr Hn.
  assert (Hc : contains AzurePipelinesRunner__name__ runner = false).
  { apply not_true_is_false. intros (pre & post & ->)%contains_spec. by eapply Hn. }
  eexists. split; [by apply (local_run_maps as_local _ _ _ _ runner)|].
  intros n. rewrite map_lookup_imap. by destruct (catalog !! n).
Qed.

(** X13: a catalog without asset datasets is left alone, whatever the run
    parameters and the hook hold.  With an asset dataset in the catalog, a
    missing runner parameter raises a [KeyError], and a local run with the
    asset-store configuration unset raises an [AttributeError]; in both
    cases the catalog is unchanged. *)
Theorem hook_raises_before_changing {AssetState OtherDataSet AzureMLConfig : Type}
    (as_local : AzureMLConfig → bool → AssetDataSet AssetState → AssetDataSet AssetState)
    (hook : option AzureMLConfig) (run_params : gmap string string)
    (inputs : gset string) (catalog : gmap string (DataSet AssetState OtherDataSet)) :
  ((∀ n ds, catalog !! n = Some ds → is_asset ds = false) →
   before_pipeline_run as_local hook run_params inputs catalog = (None, catalog))
  ∧
  ((∃ n d, catalog !! n = Some (Asset d)) →
   (run_params !! "runner" = None →
    before_pipeline_run as_local hook run_params inputs catalog
    = (Some (HookKeyError "runner"), catalog))
   ∧
   (∀ runner,
      run_params !! "runner" = Some runner →
      contains "AzurePipelinesRunner" runner = false →
      hook = None →
      before_pipeline_run as_local hook run_params inputs catalog
      = (Some (HookAttributeError "azure_config"), catalog))).
Proof.
  split; [|intros Ha; split].
  - intros Hno. unfold before_pipeline_run.
    rewrite (visit_datasets_raises as_local hook run_params inputs (HookKeyError "")).
    + destruct (existsb _ _) eqn:He; [|done].
      apply catalog_has_asset in He as (n & d & H). by apply Hno in H.
    + intros n ds c Hin Has. apply elem_of_map_to_list in Hin.
      apply Hno in Hin. congruence.
  - intros Hr. unfold before_pipeline_run.
    rewrite (visit_datasets_raises as_local hook run_params inputs (HookKeyError "runner")).
    + by rewrite (proj2 (catalog_has_asset catalog) Ha).
    + intros n [d|o] c _ Has; simpl; [|done]. by rewrite Hr.
  - intros runner Hr Hc ->. unfold before_pipeline_run.
    rewrite (visit_datasets_raises as_local None run_params inputs
               (HookAttributeError "azure_config")).
    + by rewrite (proj2 (catalog_has_asset catalog) Ha).
    + intros n [d|o] c _ Has; simpl; [|done].
      unfold AzurePipelinesRunner__name__. by rewrite Hr, Hc.
Qed.

(** X14: [after_context_created] registers the [azureml] config patterns
    only when none are registered: patterns given by the user are kept, all
    other patterns are untouched, and running it again changes no pattern.
    This holds also when reading the configuration then fails.  When nothing
    is raised, [azure_config] has been assigned the configuration built from
    the [azure] section of what the loader gives for [azureml] under the
    patterns afterwards; when an exception is raised no such configuration
    could be built and [azure_config] keeps the value it had, set or not. *)
Theorem context_patterns_registered {AzureMLConfig RawConfig : Type}
    (config_loader_getitem :
       gmap string (list string) → string → HookError + gmap string RawConfig)
    (AzureMLConfig_init : RawConfig → HookError + AzureMLConfig)
    (config_patterns : gmap string (list string)) (hook : option AzureMLConfig) :
  let after := after_context_created config_loader_getitem AzureMLConfig_init
                 config_patterns hook in
  let patterns' := after.1.2 in
  patterns' !! "azureml" = Some (default azureml_patterns (config_patterns !! "azureml"))
  ∧ (∀ k, k ≠ "azureml" → patterns' !! k = config_patterns !! k)
  ∧ (after_context_created config_loader_getitem AzureMLConfig_init patterns' hook).1.2
    = patterns'
  ∧ (let built azure_config :=
         ∃ azureml raw,
           config_loader_getitem patterns' "azureml" = inr azureml
           ∧ azureml !! "azure" = Some raw
           ∧ AzureMLConfig_init raw = inr azure_config in
     (after.1.1 = None → ∃ azure_config, built azure_config ∧ after.2 = Some azure_config)
     ∧ (after.1.1 ≠ None → (∀ azure_config, ¬ built azure_config) ∧ after.2 = hook)).
Proof.
  unfold after_context_created.
  set (p := if bool_decide ("azureml" ∉ dom config_patterns)
            then <["azureml" := azureml_patterns]> config_patterns
            else config_patterns).
  assert (Hp1 : p !! "azureml"
                = Some (default azureml_patterns (config_patterns !! "azureml"))).
  { unfold p. case_bool_decide as Hd.
    - apply not_elem_of_dom in Hd. rewrite Hd. apply lookup_insert_eq.
    - apply elem_of_dom in Hd as [l Hl]. by rewrite Hl. }
  assert (Hp2 : ∀ k, k ≠ "azureml" → p !! k = config_patterns !! k).
  { intros k Hk. unfold p. case_bool_decide; [by rewrite lookup_insert_ne|done]. }
  assert (Hp3 : (if bool_decide ("azureml" ∉ dom p)
                 then <["azureml" := azureml_patterns]> p else p) = p).
  { rewrite bool_decide_eq_false_2; [done|].
    intros Hn. apply Hn. apply elem_of_dom. by rewrite Hp1. }
  assert (Hfst : ∀ q : gmap string (list string),
            (match config_loader_getitem q "azureml" with
             | inl e => (Some e, q, hook)
             | inr azureml =>
                 match azureml !! "azure" with
                 | Some raw =>
                     match AzureMLConfig_init raw with
                     | inl e => (Some e, q, hook)
                     | inr azure_config => (None, q, Some azure_config)
                     end
                 | None => (Some (HookKeyError "azure"), q, hook)
                 end
             end).1.2 = q).
  { intros q. destruct (config_loader_getitem q "azureml") as [e|a]; [done|].
    destruct (a !! "azure") as [raw|]; [|done].
    by destruct (AzureMLConfig_init raw). }
  cbv zeta. rewrite Hfst, Hp3, Hfst.
  split; [done|]. split; [done|]. split; [done|].
  destruct (config_loader_getitem p "azureml") as [e|a] eqn:Hl.
  { split; [done|]. intros _. split; [|done].
    intros c (a & raw & Ha & _). congruence. }
  destruct (a !! "azure") as [raw|] eqn:Hraw.
  2:{ split; [done|]. intros _. split; [|done].
      intros c (a' & raw & Ha & Hr' & _). congruence. }
  destruct (AzureMLConfig_init raw) as [e|c] eqn:Hi.
  { split; [done|]. intros _. split; [|done].
    intros c (a' & raw' & Ha & Hr' & Hi'). congruence. }
  split; [|done]. intros _. exists c. split; [|done]. by exists a, raw.
Qed.

(** X15: after an [after_context_created] that raised nothing, for run
    parameters naming a runner, [before_pipeline_run] raises nothing and the
    catalog keeps its names. *)
Theorem hook_ready_after_context {AssetState OtherDataSet AzureMLConfig RawConfig : Type}
    (config_loader_getitem :
       gmap string (list string) → string → HookError + gmap string RawConfig)
    (AzureMLConfig_init : RawConfig → HookError + AzureMLConfig)
    (as_local : AzureMLConfig → bool → AssetDataSet AssetState → AssetDataSet AssetState)
    (config_patterns patterns' : gmap string (list string))
    (hook hook' : option AzureMLConfig) (run_params : gmap string string)
    (inputs : gset string) (catalog : gmap string (DataSet AssetState OtherDataSet))
    (runner : string) :
  after_context_created config_loader_getitem AzureMLConfig_init config_patterns hook
  = (None, patterns', hook') →
  run_params !! "runner" = Some runner →
  (before_pipeline_run as_local hook' run_params inputs catalog).1 = None
  ∧ dom (before_pipeline_run as_local hook' run_params inputs catalog).2 = dom catalog.
Proof.
  intros Ha Hr.
  assert (Hh : ∃ azure_config, hook' = Some azure_config).
  { revert Ha. unfold after_context_created.
    destruct (config_loader_getitem _ "azureml") as [e|a]; [done|].
    destruct (a !! "azure") as [raw|]; [|done].
    destruct (AzureMLConfig_init raw); [done|]. intros [= _ <-]. eauto. }
  destruct Hh as [azure_config ->].
  destruct (contains AzurePipelinesRunner__name__ runner) eqn:Hc.
  - rewrite (remote_run_maps as_local _ _ _ _ _ Hr Hc).
    split; [done|]. simpl. apply dom_fmap_L.
  - rewrite (local_run_maps as_local _ _ _ _ _ Hr Hc).
    split; [done|]. simpl. apply set_eq. intros k.
    rewrite !elem_of_dom, map_lookup_imap.
    destruct (catalog !! k); simpl; split; intros [x Hx]; eauto; done.
Qed.


Lemma hook_in_remote_run_witness :
  let after := before_pipeline_run HookExamples.mark_local None
                 (HookExamples.runner "kedro_azureml.runner.AzurePipelinesRunner")
                 {[ "sales" ]} HookExamples.catalog in
  after.1 = None
  ∧ after.2 !! "sales" = Some (Asset (mkAsset None (false, false)))
  ∧ after.2 !! "model" = Some (Other "pickle").
Proof.
  intros after. unfold after.
  rewrite (hook_in_remote_run HookExamples.mark_local None
             (HookExamples.runner "kedro_azureml.runner.AzurePipelinesRunner")
             {[ "sales" ]} HookExamples.catalog "kedro_azureml.runner." "" eq_refl).
  split; [reflexivity|]. split; reflexivity.
Defined.

Lemma hook_in_local_run_witness :
  let after := before_pipeline_run HookExamples.mark_local (Some "workspace")
                 (HookExamples.runner "SequentialRunner")
                 {[ "sales" ]} HookExamples.catalog in
  after.1 = None
  ∧ after.2 !! "sales"
    = Some (Asset (mkAsset (Some (mkVersion (Some "3") None)) (true, true)))
  ∧ after.2 !! "features"
    = Some (Asset (mkAsset (Some (mkVersion None None)) (false, true)))
  ∧ after.2 !! "model" = Some (Other "pickle").
Proof.
  intros after. unfold after.
  destruct (hook_in_local_run HookExamples.mark_local "workspace"
              (HookExamples.runner "SequentialRunner") {[ "sales" ]}
              HookExamples.catalog "SequentialRunner" eq_refl) as (c & -> & Hc).
  - intros pre post H.
    assert (Hin : contains "AzurePipelinesRunner" "SequentialRunner" = true).
    { apply contains_spec. eauto. }
    discriminate Hin.
  - split; [reflexivity|]. simpl. rewrite !Hc. repeat split; reflexivity.
Defined.

Lemma hook_raises_before_changing_witness :
  before_pipeline_run HookExamples.mark_local None ∅ ∅ HookExamples.plain_catalog
  = (None, HookExamples.plain_catalog)
  ∧ before_pipeline_run HookExamples.mark_local (Some "workspace") ∅ ∅ HookExamples.catalog
    = (Some (HookKeyError "runner"), HookExamples.catalog)
  ∧ before_pipeline_run HookExamples.mark_local None
      (HookExamples.runner "SequentialRunner") ∅ HookExamples.catalog
    = (Some (HookAttributeError "azure_config"), HookExamples.catalog).
Proof.
  split; [|split].
  - apply (proj1 (hook_raises_before_changing HookExamples.mark_local None ∅ ∅
                    HookExamples.plain_catalog)).
    intros n ds H. unfold HookExamples.plain_catalog in H.
    apply lookup_singleton_Some in H as [_ <-]. reflexivity.
  - apply (proj2 (hook_raises_before_changing HookExamples.mark_local (Some "workspace")
                    ∅ ∅ HookExamples.catalog)).
    + exists "sales", (mkAsset (Some (mkVersion (Some "3") None)) (false, false)).
      reflexivity.
    + reflexivity.
  - apply (proj2 (proj2 (hook_raises_before_changing HookExamples.mark_local None
                           (HookExamples.runner "SequentialRunner") ∅
                           HookExamples.catalog)
                    (ex_intro _ "sales" (ex_intro _ _ eq_refl)))
             "SequentialRunner"); reflexivity.
Defined.

Lemma context_patterns_registered_witness :
  let custom : gmap string (list string) := {[ "azureml" := ["cloud*"] ]} in
  (after_context_created HookExamples.loader HookExamples.init custom None).1.2 !! "azureml"
  = Some ["cloud*"]
  ∧ (after_context_created HookExamples.loader HookExamples.init ∅ None).1.2 !! "azureml"
    = Some ["azureml*"; "azureml*/**"; "**/azureml*"]
  ∧ (∃ azure_config,
       HookExamples.init "workspace" = inr azure_config
       ∧ (after_context_created HookExamples.loader HookExamples.init ∅ (Some "stale")).2
         = Some azure_config)
  ∧ (after_context_created HookExamples.failing_loader HookExamples.init ∅ (Some "stale")).2
    = Some "stale".
Proof.
  intros custom. split; [|split; [|split]].
  - exact (proj1 (context_patterns_registered HookExamples.loader HookExamples.init
                    custom None)).
  - exact (proj1 (context_patterns_registered HookExamples.loader HookExamples.init
                    ∅ None)).
  - assert (Hok : (after_context_created HookExamples.loader HookExamples.init
                     ∅ (Some "stale")).1.1 = None) by (vm_compute; reflexivity).
    destruct (proj1 (proj2 (proj2 (proj2
               (context_patterns_registered HookExamples.loader HookExamples.init
                  ∅ (Some "stale"))))) Hok)
      as (c & (a & raw & Ha & Hraw & Hi) & Hc).
    exists c. split; [|exact Hc].
    vm_compute in Ha. injection Ha as <-. vm_compute in Hraw.
    injection Hraw as <-. exact Hi.
  - refine (proj2 (proj2 (proj2 (proj2 (proj2
              (context_patterns_registered HookExamples.failing_loader HookExamples.init
                 ∅ (Some "stale"))))) _)).
    discriminate.
Defined.

Lemma hook_ready_after_context_witness :
  (before_pipeline_run HookExamples.mark_local (Some "workspace")
     (HookExamples.runner "SequentialRunner") {[ "sales" ]} HookExamples.catalog).1
  = None.
Proof.
  exact (proj1 (hook_ready_after_context HookExamples.loader HookExamples.init
                  HookExamples.mark_local ∅ {[ "azureml" := azureml_patterns ]}
                  None (Some "workspace") (HookExamples.runner "SequentialRunner")
                  {[ "sales" ]} HookExamples.catalog "SequentialRunner"
                  eq_refl eq_refl)).
Defined.
